(** * habr_parse_articles_url: a shallow embedding of [main.py]

    The script crawls hub listing pages with a Selenium driver, collects
    [{title, link}] records, and writes them, deduplicated by link, to a CSV
    file.  The browser is an external collaborator: it is modelled as a
    deterministic environment ([Browser]) that answers every driver call,
    and the code is embedded over a small state-and-exception monad that
    threads the driver object and records the calls made on it.

    Conventions.
    - [logging.*] and [time.sleep] calls do not influence control flow or
      any returned value and are left out of the embedding.
    - [exn] stands for instances of Python's [Exception]; [parse_hub] runs
      on pool threads, where nothing outside that class is delivered.
    - [while True] is embedded with a fuel argument; running out of fuel is
      the outcome [OutOfFuel], never a result.
    - The CSV file is its sequence of [writerow] calls; failures of the
      file system are not part of the model. *)

From stdpp Require Import base option list sets gmap strings pretty.
From Stdlib Require Import ZArith Lia Ascii.

Open Scope string_scope.
Open Scope list_scope.
Open Scope nat_scope.

(** ** Articles and the writer ([save_to_csv]) *)

(** [{'title': title, 'link': link}] as built by [parse_article]. *)
Record article := Article { title : string; link : string }.

Definition csv_row := list string.

Record csv_file := CsvFile { csv_path : string; csv_rows : list csv_row }.

(** [PARSED_DIR = Path('parsed')] *)
Definition PARSED_DIR : string := "parsed".

(** [set(article['link'] for article in parsed_articles)] *)
Definition unique_links (parsed_articles : list article) : gset string :=
  list_to_set (link <$> parsed_articles).

(** [next((a for a in parsed_articles if a['link'] == link), None)] *)
Definition next_with_link (parsed_articles : list article) (l : string)
  : option article :=
  List.find (λ a, String.eqb (link a) l) parsed_articles.

(** One iteration of [for link in unique_links]: the row written for
    [l], if any.  A two-key dict is truthy, so [if article:] only filters
    out [None]. *)
Definition row_for (parsed_articles : list article) (l : string)
  : option csv_row :=
  match next_with_link parsed_articles l with
  | Some a => Some [title a; link a]
  | None => None
  end.

(** [save_to_csv]: the header row, then one [writerow] per element of the
    set, in the set's own iteration order ([elements]).  Python leaves
    that order open (it depends on hashing and on insertion history), so
    [elements] stands for one admissible order and statements about the
    file are to be read up to the order of the data rows. *)
Definition save_to_csv (parsed_articles : list article) (filename : string)
  : csv_file :=
  {| csv_path := PARSED_DIR +:+ "/" +:+ filename;
     csv_rows :=
       ["Title"; "Link"]
         :: omap (row_for parsed_articles)
                 (elements (unique_links parsed_articles)) |}.

(** The rows after the header, and the two columns of a row. *)
Definition data_rows (f : csv_file) : list csv_row := tail (csv_rows f).
Definition row_title (r : csv_row) : option string := r !! 0.
Definition row_link (r : csv_row) : option string := r !! 1.

(** How many data rows of [f] carry the link [l]. *)
Definition rows_with_link (f : csv_file) (l : string) : list csv_row :=
  filter (λ r, row_link r = Some l) (data_rows f).

(** [a] is the first article of [arts] whose link is [l]. *)
Definition first_occurrence (arts : list article) (l : string) (a : article)
  : Prop :=
  ∃ pre suf, arts = pre ++ a :: suf ∧ link a = l ∧ ∀ b, b ∈ pre → link b ≠ l.

(** ** Configuration read at import time *)

(** A Python value as far as the configuration is concerned:
    [os.getenv] yields [None] or a [str], the pool wants an [int]. *)
Inductive pyval :=
  | PyNone
  | PyStr (s : string)
  | PyInt (z : Z).

(** [os.getenv(key)] over the process environment (after [load_dotenv()]). *)
Definition os_getenv (environ : gmap string string) (key : string) : pyval :=
  match environ !! key with
  | Some s => PyStr s
  | None => PyNone
  end.

(** [CPU_THREADS = os.getenv('CPU_THREADS')] *)
Definition CPU_THREADS (environ : gmap string string) : pyval :=
  os_getenv environ "CPU_THREADS".

Definition NUM_PAGES_PER_SEARCH : nat := 16.

Definition ALLOWED_DIFFICULTIES : list string := ["/hard"; "/medium"].

Definition SEARCH_TAGS : list string :=
  [ "https://habr.com/ru/hubs/infosecurity/articles/top/alltime{difficulty}/page{page_number}/";
    "https://habr.com/ru/hubs/sys_admin/articles/top/alltime{difficulty}/page{page_number}/";
    "https://habr.com/ru/hubs/business-laws/articles/top/alltime{difficulty}/page{page_number}/";
    "https://habr.com/ru/hubs/linux/articles/top/alltime{difficulty}/page{page_number}/";
    "https://habr.com/ru/hubs/devops/articles/top/alltime{difficulty}/page{page_number}/";
    "https://habr.com/ru/hubs/s_admin/articles/top/alltime{difficulty}/page{page_number}/";
    "https://habr.com/ru/hubs/itstandarts/articles/top/alltime{difficulty}/page{page_number}/" ].

(** ** Exceptions and outcomes *)

Inductive exn :=
  | TimeoutException
  | NoSuchElementException
  | StaleElementReferenceException
  | InvalidSessionIdException
  | WebDriverException
  | KeyError
  | ValueError
  | TypeError.

(** What a call into the browser (or a library) answers. *)
Inductive resp (A : Type) :=
  | Value (a : A)
  | Throws (e : exn).
Arguments Value {A} a.
Arguments Throws {A} e.

(** How a piece of the script ends. *)
Inductive outcome (A : Type) :=
  | Returned (a : A)
  | Raised (e : exn)
  | OutOfFuel.
Arguments Returned {A} a.
Arguments Raised {A} e.
Arguments OutOfFuel {A}.

(** ** The browser as an environment *)

(** The anchor found under an article node: [.text] and
    [.get_attribute('href')]. *)
Record web_element := WebElement {
  elem_text : resp string;
  elem_href : resp string }.

(** An [article.tm-articles-list__item] node: what the bounded wait for its
    title link answers. *)
Record article_node := ArticleNode {
  node_title_link : resp web_element }.

(** One listing page, as the driver sees it once it has navigated there. *)
Record page := Page {
  page_load : option exn;          (* [driver.get(url)] raising *)
  page_marker : option exn;        (* [None]: a marker element is present;
                                      [Some e]: the 10 s wait raised [e] *)
  page_scroll : nat → option exn;  (* the n-th [window.scrollTo] raising *)
  page_height : nat → resp Z;      (* the n-th [document.body.scrollHeight] *)
  page_items : resp (list article_node) }.

Record Browser := {
  start_firefox : option exn;      (* [webdriver.Firefox(...)] raising *)
  install_addon : option exn;      (* [driver.install_addon(...)] raising *)
  format_url : string → nat → string → resp string;
                                   (* [hub_url.format(page_number=, difficulty=)] *)
  site : string → page }.

(** Calls made on the driver object, in order. *)
Inductive event :=
  | EvStart
  | EvInstallAddon
  | EvGet (url : string)
  | EvWaitMarker
  | EvScrollTo
  | EvHeight
  | EvFindElements
  | EvQuit.

Global Instance event_eq_dec : EqDecision event.
Proof. solve_decision. Defined.

Global Instance exn_eq_dec : EqDecision exn.
Proof. solve_decision. Defined.

(** The driver object: the page it is on, how often that page has been
    scrolled and measured, and the calls received so far. *)
Record driver := Driver {
  trace : list event;
  current_url : string;
  scrolls_done : nat;
  heights_read : nat }.

Definition no_session : driver :=
  {| trace := []; current_url := "about:blank";
     scrolls_done := 0; heights_read := 0 |}.

Definition log_call (e : event) (d : driver) : driver :=
  {| trace := trace d ++ [e]; current_url := current_url d;
     scrolls_done := scrolls_done d; heights_read := heights_read d |}.

(** ** The monad of the script: driver state, exceptions, fuel *)

Definition M (A : Type) : Type := driver → outcome A * driver.

Global Instance M_ret : MRet M := λ A a d, (Returned a, d).

Global Instance M_bind : MBind M := λ A B f m d,
  match m d with
  | (Returned a, d') => f a d'
  | (Raised e, d') => (Raised e, d')
  | (OutOfFuel, d') => (OutOfFuel, d')
  end.

Definition raise {A} (e : exn) : M A := λ d, (Raised e, d).

Definition out_of_fuel {A} : M A := λ d, (OutOfFuel, d).

(** [try: body  except Exception as e: handler] *)
Definition try_except {A} (body : M A) (handler : exn → M A) : M A := λ d,
  match body d with
  | (Raised e, d') => handler e d'
  | r => r
  end.

Definition of_resp {A} (r : resp A) : M A :=
  match r with
  | Value a => mret a
  | Throws e => raise e
  end.

Definition of_status (r : option exn) : M unit :=
  match r with
  | None => mret ()
  | Some e => raise e
  end.

Section Script.

Context (B : Browser).

(** *** Driver calls *)

Definition driver_get (url : string) : M unit := λ d,
  of_status (page_load (site B url))
    {| trace := trace d ++ [EvGet url]; current_url := url;
       scrolls_done := 0; heights_read := 0 |}.

(** [WebDriverWait(driver, 10).until(EC.presence_of_element_located(...))] *)
Definition wait_for_marker : M unit := λ d,
  of_status (page_marker (site B (current_url d))) (log_call EvWaitMarker d).

(** [driver.execute_script("window.scrollTo(0, document.body.scrollHeight);")] *)
Definition execute_scroll : M unit := λ d,
  of_status (page_scroll (site B (current_url d)) (scrolls_done d))
    {| trace := trace d ++ [EvScrollTo]; current_url := current_url d;
       scrolls_done := S (scrolls_done d); heights_read := heights_read d |}.

(** [driver.execute_script("return document.body.scrollHeight")] *)
Definition execute_height : M Z := λ d,
  of_resp (page_height (site B (current_url d)) (heights_read d))
    {| trace := trace d ++ [EvHeight]; current_url := current_url d;
       scrolls_done := scrolls_done d; heights_read := S (heights_read d) |}.

(** [driver.find_elements(By.CSS_SELECTOR, 'article.tm-articles-list__item')] *)
Definition find_elements : M (list article_node) := λ d,
  of_resp (page_items (site B (current_url d))) (log_call EvFindElements d).

Definition driver_quit : M unit := λ d, (Returned (), log_call EvQuit d).

(** [webdriver.Firefox(service=service, options=options)] *)
Definition webdriver_Firefox : M unit := λ d,
  of_status (start_firefox B) (log_call EvStart d).

(** [driver.install_addon(ADBLOCK_EXTENSION_PATH, temporary=False)] *)
Definition driver_install_addon : M unit := λ d,
  of_status (install_addon B) (log_call EvInstallAddon d).

(** *** [initialize_driver] *)
Definition initialize_driver : M unit :=
  webdriver_Firefox;;
  driver_install_addon.

(** *** [open_habr_hub] *)
Definition open_habr_hub (hub_url : string) (page_number : nat)
    (difficulty : string) : M bool :=
  url ← of_resp (format_url B hub_url page_number difficulty);
  driver_get url;;
  try_except (wait_for_marker;; mret true) (λ e, mret false).

(** *** [scroll_to_load_articles] *)

(** The [while True] loop, entered with [last_height]. *)
Fixpoint scroll_loop (fuel : nat) (last_height : Z) : M unit :=
  match fuel with
  | O => out_of_fuel
  | S fuel' =>
      execute_scroll;;
      new_height ← execute_height;
      if decide (new_height = last_height) then mret ()
      else scroll_loop fuel' new_height
  end.

Definition scroll_to_load_articles (fuel : nat) : M unit :=
  last_height ← execute_height;
  scroll_loop fuel last_height.

(** *** [parse_article] and [parse_articles] *)

Definition parse_article (node : article_node) : M article :=
  title_elem ← of_resp (node_title_link node);
  title ← of_resp (elem_text title_elem);
  link ← of_resp (elem_href title_elem);
  mret (Article title link).

(** The body of [for article in articles], with the list built so far. *)
Fixpoint parse_articles_loop (articles : list article_node)
    (parsed_articles : list article) : M (list article) :=
  match articles with
  | [] => mret parsed_articles
  | node :: rest =>
      parsed_articles' ←
        try_except
          (parsed_article ← parse_article node;
           mret (parsed_articles ++ [parsed_article]))
          (λ e, mret parsed_articles);
      parse_articles_loop rest parsed_articles'
  end.

Definition parse_articles : M (list article) :=
  articles ← find_elements;
  parse_articles_loop articles [].

(** *** [parse_hub] *)

(** The body of [for page_number in range(1, NUM_PAGES_PER_SEARCH + 1)],
    over the page numbers still to visit. *)
Fixpoint parse_hub_pages (fuel : nat) (hub_url difficulty : string)
    (page_numbers : list nat) (parsed_articles : list article)
  : M (list article) :=
  match page_numbers with
  | [] => mret parsed_articles
  | page_number :: rest =>
      exists_ ← open_habr_hub hub_url page_number difficulty;
      if (exists_ : bool) then
        scroll_to_load_articles fuel;;
        found ← parse_articles;
        parse_hub_pages fuel hub_url difficulty rest (parsed_articles ++ found)
      else mret parsed_articles
  end.

Definition parse_hub (fuel : nat) (hub_url difficulty : string)
  : M (list article) :=
  initialize_driver;;
  parsed_articles ←
    parse_hub_pages fuel hub_url difficulty (seq 1 NUM_PAGES_PER_SEARCH) [];
  driver_quit;;
  mret parsed_articles.

(** One pool task: [parse_hub] on a driver of its own. *)
Definition run_parse_hub (fuel : nat) (hub_url difficulty : string)
  : outcome (list article) * driver :=
  parse_hub fuel hub_url difficulty no_session.

End Script.

(** ** [main]: fan-out over the pool and join *)

(** The (hub, difficulty) pairs in submission order. *)
Definition tasks : list (string * string) :=
  hub_url ← SEARCH_TAGS;
  difficulty ← ALLOWED_DIFFICULTIES;
  [(hub_url, difficulty)].

(** [for future in as_completed(futures)]: [future.result()] hands back the
    task's list or re-raises what the task raised. *)
Fixpoint collect_results (completed : list (outcome (list article)))
    (parsed_articles : list article) : outcome (list article) :=
  match completed with
  | [] => Returned parsed_articles
  | Returned result :: rest =>
      collect_results rest
        match result with
        | [] => parsed_articles
        | _ :: _ => parsed_articles ++ result
        end
  | Raised e :: _ => Raised e
  | OutOfFuel :: _ => OutOfFuel
  end.

Definition finished {A} (o : outcome A) : bool :=
  match o with
  | OutOfFuel => false
  | _ => true
  end.

Section Main.

(** [ThreadPoolExecutor(max_workers=v)] raising; the constructor belongs to
    the standard library, so its behaviour is a parameter here. *)
Context (executor_init : pyval → option exn).
Context (B : Browser).

(** One future per task; every task drives a session of its own. *)
Definition futures (fuel : nat) : list (outcome (list article)) :=
  (λ t, (run_parse_hub B fuel t.1 t.2).1) <$> tasks.

(** The [with ThreadPoolExecutor(...)] block of [main].  [order] lists the
    indices of the futures in the order in which [as_completed] yields
    them.  Leaving the block, normally or by an exception, waits for every
    task, so a task that never ends keeps [main] from ending. *)
Definition main_collect (environ : gmap string string) (fuel : nat)
    (order : list nat) : outcome (list article) :=
  match executor_init (CPU_THREADS environ) with
  | Some e => Raised e
  | None =>
      if forallb finished (futures fuel) then
        collect_results (omap (λ i, futures fuel !! i) order) []
      else OutOfFuel
  end.

(** [main]: the collection handed to the writer and the file written.
    [now] is [datetime.now().strftime(...)]. *)
Definition main (environ : gmap string string) (fuel : nat)
    (order : list nat) (now : string) : outcome (list article * csv_file) :=
  match main_collect environ fuel order with
  | Returned parsed_articles =>
      Returned (parsed_articles,
                save_to_csv parsed_articles ("articles_" +:+ now +:+ ".csv"))
  | Raised e => Raised e
  | OutOfFuel => OutOfFuel
  end.

End Main.

(** CPython's [ThreadPoolExecutor.__init__]: [None] selects a default size;
    any other value is compared with [0], which raises [TypeError] for a
    [str] and leads to [ValueError] for an [int] that is not positive. *)
Definition cpython_executor_init (v : pyval) : option exn :=
  match v with
  | PyNone => None
  | PyStr _ => Some TypeError
  | PyInt z => if bool_decide (z ≤ 0)%Z then Some ValueError else None
  end.

(** ** Observations on a trace *)

(** The URLs navigated to, in order. *)
Definition navigated (tr : list event) : list string :=
  omap (λ e, match e with EvGet url => Some url | _ => None end) tr.

Definition count_event (e : event) (tr : list event) : nat :=
  length (filter (λ x, x = e) tr).

(** Pages on which the article nodes were looked up. *)
Definition pages_extracted (tr : list event) : nat :=
  count_event EvFindElements tr.

(** Scroll calls made. *)
Definition scrolls (tr : list event) : nat := count_event EvScrollTo tr.

(** Height measurements made. *)
Definition measurements (tr : list event) : nat := count_event EvHeight tr.

(** Times the session was closed. *)
Definition quits (tr : list event) : nat := count_event EvQuit tr.

(** ** Concrete browsers for evaluation *)

(** Field substitution that agrees with [str.format] on templates whose
    only braces delimit the fields [{difficulty}] and [{page_number}]. *)
Fixpoint substitute_fields (template : string) (field : option string)
    (page_number : nat) (difficulty : string) : resp string :=
  match template, field with
  | EmptyString, None => Value ""
  | EmptyString, Some _ => Throws ValueError
  | String c rest, None =>
      if decide (c = "{"%char) then
        substitute_fields rest (Some "") page_number difficulty
      else if decide (c = "}"%char) then Throws ValueError
      else match substitute_fields rest None page_number difficulty with
           | Value s => Value (String c s)
           | Throws e => Throws e
           end
  | String c rest, Some name =>
      if decide (c = "}"%char) then
        match substitute_fields rest None page_number difficulty with
        | Value s =>
            if decide (name = "difficulty") then Value (difficulty +:+ s)
            else if decide (name = "page_number") then
              Value (pretty page_number +:+ s)
            else Throws KeyError
        | Throws e => Throws e
        end
      else
        substitute_fields rest (Some (name +:+ String c "")) page_number
          difficulty
  end.

Definition demo_format (hub_url : string) (page_number : nat)
    (difficulty : string) : resp string :=
  substitute_fields hub_url None page_number difficulty.

(** A page that loads, shows the marker, has a fixed height and holds
    [nodes]. *)
Definition listing (nodes : list article_node) : page :=
  {| page_load := None; page_marker := None;
     page_scroll := λ _, None; page_height := λ _, Value 1000%Z;
     page_items := Value nodes |}.

(** A page that loads but never shows the marker. *)
Definition missing : page :=
  {| page_load := None; page_marker := Some TimeoutException;
     page_scroll := λ _, None; page_height := λ _, Value 0%Z;
     page_items := Value [] |}.

(** A page on which navigation itself fails. *)
Definition unreachable : page :=
  {| page_load := Some WebDriverException; page_marker := Some TimeoutException;
     page_scroll := λ _, None; page_height := λ _, Value 0%Z;
     page_items := Value [] |}.

(** A page that grows by one pixel at every measurement. *)
Definition growing : page :=
  {| page_load := None; page_marker := None;
     page_scroll := λ _, None; page_height := λ n, Value (Z.of_nat n);
     page_items := Value [] |}.

(** A page that grows three times and then keeps its height. *)
Definition settling : page :=
  {| page_load := None; page_marker := None;
     page_scroll := λ _, None;
     page_height := λ n, Value (Z.of_nat (n `min` 3));
     page_items := Value [] |}.

Definition good_node (t l : string) : article_node :=
  {| node_title_link :=
       Value {| elem_text := Value t; elem_href := Value l |} |}.

Definition timed_out_node : article_node :=
  {| node_title_link := Throws TimeoutException |}.

Definition stale_node : article_node :=
  {| node_title_link :=
       Value {| elem_text := Throws StaleElementReferenceException;
                elem_href := Value "https://habr.com/ru/articles/3/" |} |}.

Definition linux_hub : string :=
  "https://habr.com/ru/hubs/linux/articles/top/alltime{difficulty}/page{page_number}/".

Definition linux_hard_1 : string :=
  "https://habr.com/ru/hubs/linux/articles/top/alltime/hard/page1/".

Definition devops_medium_1 : string :=
  "https://habr.com/ru/hubs/devops/articles/top/alltime/medium/page1/".

Definition demo_nodes : list article_node :=
  [ good_node "A" "https://habr.com/ru/articles/1/";
    timed_out_node;
    stale_node;
    good_node "B" "https://habr.com/ru/articles/2/" ].

Definition with_site (s : string → page) : Browser :=
  {| start_firefox := None; install_addon := None;
     format_url := demo_format; site := s |}.

(** Only page 1 of linux/hard exists. *)
Definition one_page_browser : Browser :=
  with_site (λ url, if decide (url = linux_hard_1) then listing demo_nodes
                    else missing).

(** Nothing exists. *)
Definition empty_browser : Browser := with_site (λ _, missing).

(** linux/hard page 1 cannot be reached; devops/medium page 1 exists. *)
Definition failing_browser : Browser :=
  with_site (λ url, if decide (url = linux_hard_1) then unreachable
                    else if decide (url = devops_medium_1)
                         then listing demo_nodes
                    else missing).

(** linux/hard page 1 exists; devops/medium page 1 exists. *)
Definition two_hub_browser : Browser :=
  with_site (λ url, if decide (url = linux_hard_1) then listing demo_nodes
                    else if decide (url = devops_medium_1)
                         then listing [good_node "C" "https://habr.com/ru/articles/9/"]
                    else missing).

Definition growing_browser : Browser := with_site (λ _, growing).

Definition settling_browser : Browser := with_site (λ _, settling).

(** A browser whose session dies while page 1 is being waited for. *)
Definition dying_browser : Browser :=
  with_site (λ _, {| page_load := None;
                     page_marker := Some InvalidSessionIdException;
                     page_scroll := λ _, Some InvalidSessionIdException;
                     page_height := λ _, Throws InvalidSessionIdException;
                     page_items := Throws InvalidSessionIdException |}).

(** Where page [k] of linux/hard lives. *)
Definition linux_hard_url (k : nat) : string :=
  "https://habr.com/ru/hubs/linux/articles/top/alltime/hard/page"
    +:+ pretty k +:+ "/".

(** A driver that has just navigated to [url]. *)
Definition at_page (url : string) : driver :=
  {| trace := [EvStart; EvInstallAddon; EvGet url; EvWaitMarker];
     current_url := url; scrolls_done := 0; heights_read := 0 |}.

Definition demo_articles : list article :=
  [Article "A" "L1"; Article "B" "L1"; Article "C" "L2"].

(** ** Vocabulary of the statements *)

(** [m] only appends events satisfying [P], however it ends. *)
Definition emits {A} (P : event → Prop) (m : M A) : Prop :=
  ∀ d, ∃ evs, trace (m d).2 = trace d ++ evs ∧ Forall P evs.

(** [m] leaves the driver on the page it was on. *)
Definition stays {A} (m : M A) : Prop :=
  ∀ d, current_url (m d).2 = current_url d.

Definition is_scroll_event (e : event) : Prop := e = EvScrollTo ∨ e = EvHeight.

Definition not_quit (e : event) : Prop := e ≠ EvQuit.

(** What [parse_article] makes of a node, if it returns. *)
Definition node_result (node : article_node) : option article :=
  match (parse_article node no_session).1 with
  | Returned a => Some a
  | _ => None
  end.

(** The driver is on [u] and has read [h 0 .. h k], after [k] scrolls. *)
Definition measured (u : string) (hb sb k : nat) (d : driver) : Prop :=
  current_url d = u ∧ heights_read d = hb + S k ∧ scrolls_done d = sb + k.

(** Within [N] scrolls the height of [pg] repeats, every call answering. *)
Definition page_settles (pg : page) (N : nat) : Prop :=
  ∃ h : nat → Z,
    (∀ n, page_height pg n = Value (h n)) ∧
    (∀ n, page_scroll pg n = None) ∧
    ∃ n, n < N ∧ h (S n) = h n.

(** Page [k] of the hub lives at [url], shows the marker, settles under
    scrolling and lets its article nodes be looked up. *)
Definition page_exists (B : Browser) (N : nat) (hub_url difficulty : string)
    (k : nat) (url : string) : Prop :=
  format_url B hub_url k difficulty = Value url ∧
  page_load (site B url) = None ∧
  page_marker (site B url) = None ∧
  page_settles (site B url) N ∧
  ∃ nodes, page_items (site B url) = Value nodes.

(** Page [k] of the hub lives at [url] and the wait for the marker fails
    there. *)
Definition page_absent (B : Browser) (hub_url difficulty : string)
    (k : nat) (url : string) : Prop :=
  format_url B hub_url k difficulty = Value url ∧
  page_load (site B url) = None ∧
  ∃ e, page_marker (site B url) = Some e.

Definition returned {A} (o : outcome A) : bool :=
  match o with
  | Returned _ => true
  | _ => false
  end.

(** The lists handed back by the futures of [l], concatenated. *)
Definition results_of (l : list (outcome (list article))) : list article :=
  o ← l; match o with Returned r => r | _ => [] end.

Create HintDb script discriminated.

(** ** Further vocabulary and concrete browsers *)

(** Page [k] of the hub lives at [url], shows the marker, settles under
    scrolling and holds the article nodes [nodes]. *)
Definition page_holds (B : Browser) (N : nat) (hub_url difficulty : string)
    (k : nat) (url : string) (nodes : list article_node) : Prop :=
  format_url B hub_url k difficulty = Value url ∧
  page_load (site B url) = None ∧
  page_marker (site B url) = None ∧
  page_settles (site B url) N ∧
  page_items (site B url) = Value nodes.

(** The articles [parse_articles] makes of the nodes of pages
    [p .. p + K - 1]. *)
Definition articles_of_pages (nodes : nat → list article_node) (p K : nat)
  : list article :=
  k ← seq p K; omap node_result (nodes k).

(** [n] scroll-and-measure rounds. *)
Definition scroll_rounds (n : nat) : list event :=
  concat (replicate n [EvScrollTo; EvHeight]).

(** Firefox does not start. *)
Definition no_firefox_browser : Browser :=
  {| start_firefox := Some WebDriverException; install_addon := None;
     format_url := demo_format; site := λ _, listing demo_nodes |}.

(** Firefox starts, the extension cannot be installed. *)
Definition no_addon_browser : Browser :=
  {| start_firefox := None; install_addon := Some WebDriverException;
     format_url := demo_format; site := λ _, listing demo_nodes |}.

(** Every page exists and holds the same nodes. *)
Definition full_browser : Browser := with_site (λ _, listing demo_nodes).

(** Pages exist, but their elements cannot be looked up. *)
Definition lookup_failing_browser : Browser :=
  with_site (λ _, {| page_load := None; page_marker := None;
                     page_scroll := λ _, None;
                     page_height := λ _, Value 1000%Z;
                     page_items := Throws StaleElementReferenceException |}).

(** A template with a field the script does not supply. *)
Definition bad_template : string :=
  "https://habr.com/ru/hubs/{hub}/articles/page{page_number}/".

(** The URLs of the page numbers [pages], as [format_url] gives them. *)
Definition formatted (B : Browser) (hub_url difficulty : string)
    (urls : list string) (pages : list nat) : Prop :=
  Forall2 (λ url k, format_url B hub_url k difficulty = Value url) urls pages.

(** Pages exist, but their height cannot be read. *)
Definition script_failing_browser : Browser :=
  with_site (λ _, {| page_load := None; page_marker := None;
                     page_scroll := λ _, None;
                     page_height := λ _, Throws WebDriverException;
                     page_items := Value demo_nodes |}).

(** The calls made on an existing page: navigate, wait for the marker,
    measure, [r] rounds of scroll-and-measure, look up the nodes. *)
Definition page_visit (url : string) (r : nat) : list event :=
  [EvGet url; EvWaitMarker; EvHeight] ++ scroll_rounds r ++ [EvFindElements].

(** Scrolling [pg] raises [e] within [N] rounds: either the first
    measurement raises, or the heights keep changing up to a round whose
    scroll or measurement raises. *)
Definition scroll_raises (pg : page) (N : nat) (e : exn) : Prop :=
  page_height pg 0 = Throws e ∨
  ∃ (h : nat → Z) (n : nat),
    n < N ∧
    (∀ i, i ≤ n → page_height pg i = Value (h i)) ∧
    (∀ i, i < n → page_scroll pg i = None ∧ h (S i) ≠ h i) ∧
    (page_scroll pg n = Some e ∨
     (page_scroll pg n = None ∧ page_height pg (S n) = Throws e)).

(** Crawling page [k] of the hub raises [e]: in formatting its URL, in
    navigating to it, in scrolling it, or in looking up its nodes. *)
Definition page_fails (B : Browser) (N : nat) (hub_url difficulty : string)
    (k : nat) (e : exn) : Prop :=
  format_url B hub_url k difficulty = Throws e ∨
  ∃ url,
    format_url B hub_url k difficulty = Value url ∧
    (page_load (site B url) = Some e ∨
     (page_load (site B url) = None ∧
      page_marker (site B url) = None ∧
      (scroll_raises (site B url) N e ∨
       (page_settles (site B url) N ∧
        page_items (site B url) = Throws e)))).

(** A call of the crawl raises [e]: starting Firefox, installing the
    extension, or, after pages 1..K were crawled, crawling page K+1. *)
Definition crawl_fails (B : Browser) (N : nat) (hub_url difficulty : string)
    (e : exn) : Prop :=
  start_firefox B = Some e ∨
  (start_firefox B = None ∧ install_addon B = Some e) ∨
  (start_firefox B = None ∧ install_addon B = None ∧
   ∃ (K : nat) (u : nat → string),
     K < NUM_PAGES_PER_SEARCH ∧
     (∀ k, 1 ≤ k ≤ K → page_exists B N hub_url difficulty k (u k)) ∧
     page_fails B N hub_url difficulty (S K) e).

(** Page 2 of linux/hard cannot be reached; page 1 exists. *)
Definition second_page_failing_browser : Browser :=
  with_site (λ url, if decide (url = linux_hard_1) then listing demo_nodes
                    else unreachable).

(** * Properties *)

(** ** The writer *)

Lemma next_with_link_first (arts : list article) (l : string) :
  l ∈ link <$> arts →
  ∃ a, next_with_link arts l = Some a ∧ first_occurrence arts l a.
Proof.
  unfold next_with_link, first_occurrence.
  induction arts as [|b arts IH]; intros Hin; simpl in *.
  - by apply elem_of_nil in Hin.
  - destruct (String.eqb (link b) l) eqn:Hb.
    + apply String.eqb_eq in Hb. exists b. split; [done|].
      exists [], arts. split_and!; [done..|]. intros c Hc.
      by apply elem_of_nil in Hc.
    + apply String.eqb_neq in Hb.
      apply elem_of_cons in Hin as [Hl|Hin]; [congruence|].
      destruct (IH Hin) as (a & Hfind & pre & suf & -> & Ha & Hpre).
      exists a. split; [done|]. exists (b :: pre), suf.
      split_and!; [done..|]. intros c Hc.
      apply elem_of_cons in Hc as [->|Hc]; auto.
Qed.

Lemma row_for_member (arts : list article) (l : string) :
  l ∈ unique_links arts →
  ∃ a, first_occurrence arts l a ∧ row_for arts l = Some [title a; l].
Proof.
  unfold unique_links. rewrite elem_of_list_to_set. intros Hin.
  destruct (next_with_link_first arts l Hin) as (a & Hfind & Hfirst).
  exists a. split; [done|]. unfold row_for. rewrite Hfind.
  destruct Hfirst as (? & ? & _ & <- & _). done.
Qed.

Lemma omap_row_for_links (arts : list article) (ls : list string) :
  (∀ l, l ∈ ls → l ∈ unique_links arts) →
  row_link <$> omap (row_for arts) ls = Some <$> ls.
Proof.
  induction ls as [|l ls IH]; intros Hall; [done|]. simpl.
  destruct (row_for_member arts l) as (a & _ & ->); [apply Hall; left|].
  simpl. f_equal. apply IH. intros l' Hl'. apply Hall. by right.
Qed.

Lemma data_rows_links (arts : list article) (fn : string) :
  row_link <$> data_rows (save_to_csv arts fn)
  = Some <$> elements (unique_links arts).
Proof.
  unfold data_rows, save_to_csv. simpl. apply omap_row_for_links.
  intros l. by rewrite elem_of_elements.
Qed.

Lemma length_filter_fmap {A B} (f : A → B) (y : B) `{EqDecision B}
    (l : list A) :
  length (filter (λ x, f x = y) l) = length (filter (λ z, z = y) (f <$> l)).
Proof.
  induction l as [|x l IH]; [done|]. rewrite fmap_cons, !filter_cons.
  destruct (decide (f x = y)); simpl; by rewrite IH.
Qed.

Lemma NoDup_count {A} `{EqDecision A} (y : A) (l : list A) :
  NoDup l →
  length (filter (λ z, z = y) l) = if decide (y ∈ l) then 1 else 0.
Proof.
  induction 1 as [|x l Hx Hnd IH]; [done|]. rewrite filter_cons.
  destruct (decide (x = y)) as [->|Hne]; simpl.
  - rewrite IH. rewrite decide_False by done.
    rewrite decide_True by left. done.
  - rewrite IH. destruct (decide (y ∈ l)) as [Hy|Hy].
    + rewrite decide_True by (by right). done.
    + rewrite decide_False; [done|]. intros [->|?]%elem_of_cons; done.
Qed.

(** C1. The data rows written by [save_to_csv] carry pairwise different
    links, and a link occurs in exactly one data row when it is the link
    of some input article (and in none otherwise). *)
Theorem save_to_csv_links_unique (arts : list article) (fn l : string) :
  NoDup (row_link <$> data_rows (save_to_csv arts fn)) ∧
  length (rows_with_link (save_to_csv arts fn) l)
  = if decide (l ∈ link <$> arts) then 1 else 0.
Proof.
  assert (Hnd : NoDup (row_link <$> data_rows (save_to_csv arts fn))).
  { rewrite data_rows_links. apply (NoDup_fmap_2 _), NoDup_elements. }
  split; [done|]. unfold rows_with_link.
  rewrite (length_filter_fmap row_link (Some l)), (NoDup_count _ _ Hnd).
  rewrite data_rows_links.
  destruct (decide (l ∈ link <$> arts)) as [Hl|Hl].
  - rewrite decide_True; [done|]. apply list_elem_of_fmap. exists l.
    split; [done|]. apply elem_of_elements. unfold unique_links.
    by apply elem_of_list_to_set.
  - rewrite decide_False; [done|]. intros (l' & [= <-] & Hin)%list_elem_of_fmap.
    apply elem_of_elements in Hin. unfold unique_links in Hin.
    by apply elem_of_list_to_set in Hin.
Qed.

Lemma filter_eq_NoDup {A} `{EqDecision A} (y : A) (l : list A) :
  NoDup l → y ∈ l → filter (λ z, z = y) l = [y].
Proof.
  induction 1 as [|x l Hx Hnd IH]; intros Hy.
  - by apply elem_of_nil in Hy.
  - rewrite filter_cons. destruct (decide (x = y)) as [->|Hne].
    + f_equal. apply (length_zero_iff_nil (filter _ l)).
      rewrite (NoDup_count y l Hnd). by rewrite decide_False.
    + apply IH. by apply elem_of_cons in Hy as [->|Hy].
Qed.

Lemma filter_omap_row_for (arts : list article) (l : string) (ls : list string) :
  (∀ l', l' ∈ ls → l' ∈ unique_links arts) →
  filter (λ r, row_link r = Some l) (omap (row_for arts) ls)
  = omap (row_for arts) (filter (λ z, z = l) ls).
Proof.
  induction ls as [|l' ls IH]; intros Hall; [done|]. csimpl.
  destruct (row_for_member arts l') as (a & _ & Hrow); [apply Hall; left|].
  rewrite Hrow, !filter_cons.
  rewrite IH by (intros ? ?; apply Hall; by right).
  change (row_link [title a; l']) with (Some l').
  destruct (decide (l' = l)) as [->|Hne].
  - rewrite decide_True by done. csimpl. by rewrite Hrow.
  - rewrite decide_False by congruence. done.
Qed.

(** C2. For a link of the input, the single data row written for it
    carries the title of the first input article with that link; on the
    input A/L1, B/L1, C/L2 the data rows are exactly A/L1 and C/L2 (the
    order of rows is that of the set and is not fixed). *)
Theorem save_to_csv_first_title (arts : list article) (fn l : string) :
  (l ∈ link <$> arts →
   ∃ a, first_occurrence arts l a ∧
        rows_with_link (save_to_csv arts fn) l = [[title a; l]]) ∧
  data_rows (save_to_csv demo_articles fn) ≡ₚ [["A"; "L1"]; ["C"; "L2"]].
Proof.
  split.
  - intros Hl.
    assert (Hin : l ∈ unique_links arts) by by apply elem_of_list_to_set.
    destruct (row_for_member arts l Hin) as (a & Hfirst & Hrow).
    exists a. split; [done|]. unfold rows_with_link, data_rows, save_to_csv.
    simpl. rewrite filter_omap_row_for by (intros ?; by rewrite elem_of_elements).
    rewrite (filter_eq_NoDup l); [|apply NoDup_elements|by apply elem_of_elements].
    simpl. by rewrite Hrow.
  - unfold data_rows, save_to_csv. simpl.
    replace (elements (unique_links demo_articles)) with ["L1"; "L2"]
      by (by vm_compute).
    done.
Qed.

Lemma save_to_csv_first_title_witness :
  ∃ a, first_occurrence demo_articles "L1" a ∧
       rows_with_link (save_to_csv demo_articles "articles.csv") "L1"
       = [[title a; "L1"]].
Proof.
  apply (save_to_csv_first_title demo_articles "articles.csv" "L1").
  simpl. left.
Defined.

(** ** Configuration *)

(** C9 (as the code has it). [main] hands [os.getenv('CPU_THREADS')] to
    the pool constructor as it is.  When the variable is set, to any string
    at all, that string is the argument, the constructor's comparison with
    0 raises [TypeError], and [main] raises it before any result is
    collected.  When the variable is absent the argument is [None], which
    the constructor accepts, and [main] goes on to the join: if all tasks
    return, it returns with a file written. *)
Theorem cpu_threads_set_raises_type_error (B : Browser)
    (environ : gmap string string) (fuel : nat) (order : list nat)
    (now : string) :
  (∀ s, environ !! "CPU_THREADS" = Some s →
        CPU_THREADS environ = PyStr s ∧
        main cpython_executor_init B environ fuel order now
        = Raised TypeError) ∧
  (environ !! "CPU_THREADS" = None →
   CPU_THREADS environ = PyNone ∧
   cpython_executor_init (CPU_THREADS environ) = None ∧
   (order ≡ₚ seq 0 (length tasks) →
    forallb returned (futures B fuel) = true →
    ∃ merged file,
      main cpython_executor_init B environ fuel order now
      = Returned (merged, file))).
Proof.
  split.
  { intros s Henv. unfold main, main_collect, CPU_THREADS, os_getenv.
    by rewrite Henv. }
  intros Henv.
  assert (Harg : CPU_THREADS environ = PyNone).
  { unfold CPU_THREADS, os_getenv. by rewrite Henv. }
  split_and!; [done|by rewrite Harg|]. intros Horder Hret.
  assert (Hfin : forallb finished (futures B fuel) = true).
  { apply forallb_forall. intros o Ho.
    pose proof (proj1 (forallb_forall _ _) Hret o Ho). by destruct o. }
  assert (Hall : forallb returned (omap (λ i, futures B fuel !! i) order)
                 = true).
  { apply forallb_forall. intros o Ho. apply list_elem_of_In in Ho.
    apply list_elem_of_omap in Ho as (i & _ & Hi).
    apply list_elem_of_lookup_2, list_elem_of_In in Hi.
    exact (proj1 (forallb_forall _ _) Hret o Hi). }
  unfold main, main_collect. rewrite Harg. cbn [cpython_executor_init].
  rewrite Hfin. clear Horder. revert Hall. generalize (@nil article).
  induction (omap _ order) as [|[r|e|] l IH]; intros acc Hall; simpl in *;
    [by eexists _, _|by apply IH|done..].
Qed.

Lemma cpu_threads_set_raises_type_error_witness :
  (CPU_THREADS {["CPU_THREADS" := "4"]} = PyStr "4" ∧
   main cpython_executor_init two_hub_browser {["CPU_THREADS" := "4"]} 1
     (seq 0 14) "2024-01-01_00-00-00"
   = Raised TypeError) ∧
  ∃ merged file,
    main cpython_executor_init two_hub_browser ∅ 1 (seq 0 14)
      "2024-01-01_00-00-00"
    = Returned (merged, file).
Proof.
  split.
  - apply (cpu_threads_set_raises_type_error two_hub_browser
             {["CPU_THREADS" := "4"]} 1 (seq 0 14) "2024-01-01_00-00-00").
    vm_compute. reflexivity.
  - apply (cpu_threads_set_raises_type_error two_hub_browser ∅ 1 (seq 0 14)
             "2024-01-01_00-00-00").
    + reflexivity.
    + reflexivity.
    + vm_compute. reflexivity.
Defined.

(** C9 fails as stated for the absent variable: [None] is then the
    argument, and the constructor raises nothing on it. *)
Lemma cpu_threads_absent_is_accepted :
  ¬ ∀ environ : gmap string string,
      environ !! "CPU_THREADS" = None →
      ∃ e, cpython_executor_init (CPU_THREADS environ) = Some e.
Proof.
  intros Hclaim. destruct (Hclaim ∅) as (e & He); [reflexivity|].
  vm_compute in He. discriminate He.
Qed.

(** ** Running the monad *)

Lemma bind_run {A C} (m : M A) (f : A → M C) (d : driver) :
  (m ≫= f) d
  = match m d with
    | (Returned a, d') => f a d'
    | (Raised e, d') => (Raised e, d')
    | (OutOfFuel, d') => (OutOfFuel, d')
    end.
Proof. reflexivity. Qed.

Lemma ret_run {A} (a : A) (d : driver) : mret (M := M) a d = (Returned a, d).
Proof. reflexivity. Qed.

(** *** What a computation adds to the trace *)

Lemma emits_ret {A} P (a : A) : emits P (mret a).
Proof. intros d. exists []. by rewrite app_nil_r. Qed.

Lemma emits_raise {A} P (e : exn) : emits P (raise (A := A) e).
Proof. intros d. exists []. by rewrite app_nil_r. Qed.

Lemma emits_out_of_fuel {A} P : emits P (out_of_fuel (A := A)).
Proof. intros d. exists []. by rewrite app_nil_r. Qed.

Lemma emits_bind {A C} P (m : M A) (f : A → M C) :
  emits P m → (∀ a, emits P (f a)) → emits P (m ≫= f).
Proof.
  intros Hm Hf d. rewrite bind_run. destruct (Hm d) as (evs & Htr & Hevs).
  destruct (m d) as [[a|e|] d']; simpl in *; [|by eauto..].
  destruct (Hf a d') as (evs' & Htr' & Hevs'). exists (evs ++ evs').
  rewrite Htr', Htr, app_assoc. split; [done|]. by apply Forall_app.
Qed.

Lemma emits_try {A} P (m : M A) (h : exn → M A) :
  emits P m → (∀ e, emits P (h e)) → emits P (try_except m h).
Proof.
  intros Hm Hh d. unfold try_except. destruct (Hm d) as (evs & Htr & Hevs).
  destruct (m d) as [[a|e|] d']; simpl in *; [by eauto| |by eauto].
  destruct (Hh e d') as (evs' & Htr' & Hevs'). exists (evs ++ evs').
  rewrite Htr', Htr, app_assoc. split; [done|]. by apply Forall_app.
Qed.

Lemma emits_of_resp {A} P (r : resp A) : emits P (of_resp r).
Proof. destruct r; [apply emits_ret|apply emits_raise]. Qed.

Lemma emits_of_status P (r : option exn) : emits P (of_status r).
Proof. destruct r; [apply emits_raise|apply emits_ret]. Qed.

Global Hint Resolve emits_ret emits_raise emits_out_of_fuel emits_of_resp
  emits_of_status : script.

Lemma stays_ret {A} (a : A) : stays (mret a).
Proof. by intros d. Qed.

Lemma stays_raise {A} (e : exn) : stays (raise (A := A) e).
Proof. by intros d. Qed.

Lemma stays_out_of_fuel {A} : stays (out_of_fuel (A := A)).
Proof. by intros d. Qed.

Lemma stays_bind {A C} (m : M A) (f : A → M C) :
  stays m → (∀ a, stays (f a)) → stays (m ≫= f).
Proof.
  intros Hm Hf d. rewrite bind_run. specialize (Hm d).
  destruct (m d) as [[a|e|] d']; simpl in *; [|done..].
  by rewrite Hf.
Qed.

Lemma stays_try {A} (m : M A) (h : exn → M A) :
  stays m → (∀ e, stays (h e)) → stays (try_except m h).
Proof.
  intros Hm Hh d. unfold try_except. specialize (Hm d).
  destruct (m d) as [[a|e|] d']; simpl in *; [done| |done].
  by rewrite Hh.
Qed.

Lemma stays_of_resp {A} (r : resp A) : stays (of_resp r).
Proof. destruct r; [apply stays_ret|apply stays_raise]. Qed.

Lemma stays_of_status (r : option exn) : stays (of_status r).
Proof. destruct r; [apply stays_raise|apply stays_ret]. Qed.

Global Hint Resolve stays_ret stays_raise stays_out_of_fuel stays_of_resp
  stays_of_status : script.

(** *** Counting over an extended trace *)

Lemma count_event_app (e : event) (tr evs : list event) :
  count_event e (tr ++ evs) = count_event e tr + count_event e evs.
Proof. unfold count_event. by rewrite filter_app, length_app. Qed.

Lemma count_event_absent (e : event) (evs : list event) :
  Forall (λ x, x ≠ e) evs → count_event e evs = 0.
Proof.
  unfold count_event. induction 1 as [|x evs Hx _ IH]; [done|].
  rewrite filter_cons. by rewrite decide_False.
Qed.

Lemma navigated_app (tr evs : list event) :
  navigated (tr ++ evs) = navigated tr ++ navigated evs.
Proof. unfold navigated. apply omap_app. Qed.

Lemma navigated_scroll_events (evs : list event) :
  Forall is_scroll_event evs → navigated evs = [].
Proof.
  induction 1 as [|x evs [->| ->] _ IH]; done.
Qed.

Section ScriptFacts.

Context (B : Browser).

(** *** The driver calls *)

Lemma emits_driver_get P url : P (EvGet url) → emits P (driver_get B url).
Proof.
  intros HP d. unfold driver_get.
  destruct (emits_of_status P (page_load (site B url))
    {| trace := trace d ++ [EvGet url]; current_url := url;
       scrolls_done := 0; heights_read := 0 |}) as (evs & Htr & Hevs).
  exists (EvGet url :: evs). rewrite Htr. simpl. rewrite <-app_assoc.
  split; [done|]. by constructor.
Qed.

Lemma emits_wait_for_marker P : P EvWaitMarker → emits P (wait_for_marker B).
Proof.
  intros HP d. unfold wait_for_marker.
  destruct (emits_of_status P (page_marker (site B (current_url d)))
    (log_call EvWaitMarker d)) as (evs & Htr & Hevs).
  exists (EvWaitMarker :: evs). rewrite Htr. simpl. rewrite <-app_assoc.
  split; [done|]. by constructor.
Qed.

Lemma emits_execute_scroll P : P EvScrollTo → emits P (execute_scroll B).
Proof.
  intros HP d. unfold execute_scroll.
  match goal with |- context [of_status ?r ?s] =>
    destruct (emits_of_status P r s) as (evs & Htr & Hevs) end.
  exists (EvScrollTo :: evs). rewrite Htr. simpl. rewrite <-app_assoc.
  split; [done|]. by constructor.
Qed.

Lemma emits_execute_height P : P EvHeight → emits P (execute_height B).
Proof.
  intros HP d. unfold execute_height.
  match goal with |- context [of_resp ?r ?s] =>
    destruct (emits_of_resp P r s) as (evs & Htr & Hevs) end.
  exists (EvHeight :: evs). rewrite Htr. simpl. rewrite <-app_assoc.
  split; [done|]. by constructor.
Qed.

Lemma emits_find_elements P : P EvFindElements → emits P (find_elements B).
Proof.
  intros HP d. unfold find_elements.
  match goal with |- context [of_resp ?r ?s] =>
    destruct (emits_of_resp P r s) as (evs & Htr & Hevs) end.
  exists (EvFindElements :: evs). rewrite Htr. simpl. rewrite <-app_assoc.
  split; [done|]. by constructor.
Qed.

Lemma emits_webdriver_Firefox P : P EvStart → emits P (webdriver_Firefox B).
Proof.
  intros HP d. unfold webdriver_Firefox.
  match goal with |- context [of_status ?r ?s] =>
    destruct (emits_of_status P r s) as (evs & Htr & Hevs) end.
  exists (EvStart :: evs). rewrite Htr. simpl. rewrite <-app_assoc.
  split; [done|]. by constructor.
Qed.

Lemma emits_driver_install_addon P :
  P EvInstallAddon → emits P (driver_install_addon B).
Proof.
  intros HP d. unfold driver_install_addon.
  match goal with |- context [of_status ?r ?s] =>
    destruct (emits_of_status P r s) as (evs & Htr & Hevs) end.
  exists (EvInstallAddon :: evs). rewrite Htr. simpl. rewrite <-app_assoc.
  split; [done|]. by constructor.
Qed.

Lemma stays_execute_scroll : stays (execute_scroll B).
Proof.
  intros d. unfold execute_scroll.
  match goal with |- context [of_status ?r ?s] =>
    by rewrite (stays_of_status r s) end.
Qed.

Lemma stays_execute_height : stays (execute_height B).
Proof.
  intros d. unfold execute_height.
  match goal with |- context [of_resp ?r ?s] =>
    by rewrite (stays_of_resp r s) end.
Qed.

Lemma stays_find_elements : stays (find_elements B).
Proof.
  intros d. unfold find_elements.
  match goal with |- context [of_resp ?r ?s] =>
    by rewrite (stays_of_resp r s) end.
Qed.

End ScriptFacts.

Global Hint Resolve emits_driver_get emits_wait_for_marker emits_execute_scroll
  emits_execute_height emits_find_elements emits_webdriver_Firefox
  emits_driver_install_addon stays_execute_scroll stays_execute_height
  stays_find_elements : script.

(** Steps through binds whose pieces are solved from the hint base. *)
Ltac script_step :=
  repeat first
    [ apply emits_bind; [|intros ?]
    | apply emits_try; [|intros ?]
    | apply stays_bind; [|intros ?]
    | apply stays_try; [|intros ?]
    | progress eauto with script ].

(** ** Extraction of one page ([parse_article], [parse_articles]) *)

Lemma parse_article_run (node : article_node) (d : driver) :
  parse_article node d = ((parse_article node no_session).1, d).
Proof.
  unfold parse_article. rewrite !bind_run.
  destruct (node_title_link node) as [[t l]|e]; simpl; [|done].
  rewrite !bind_run. destruct t as [t|e]; simpl; [|done].
  rewrite !bind_run. by destruct l as [l|e].
Qed.

Lemma parse_article_finishes (node : article_node) :
  (parse_article node no_session).1 ≠ OutOfFuel.
Proof.
  unfold parse_article. rewrite !bind_run.
  destruct (node_title_link node) as [[t l]|e]; simpl; [|done].
  rewrite !bind_run. destruct t as [t|e]; simpl; [|done].
  rewrite !bind_run. by destruct l as [l|e].
Qed.

Lemma parse_articles_loop_run (nodes : list article_node)
    (parsed : list article) (d : driver) :
  parse_articles_loop nodes parsed d
  = (Returned (parsed ++ omap node_result nodes), d).
Proof.
  revert parsed. induction nodes as [|node nodes IH]; intros parsed.
  - simpl. by rewrite app_nil_r.
  - cbn [parse_articles_loop]. rewrite bind_run. unfold try_except.
    rewrite bind_run, parse_article_run. csimpl. unfold node_result.
    pose proof (parse_article_finishes node) as Hfin.
    destruct (parse_article node no_session).1 as [a|e|]; [| |done].
    + rewrite ret_run, IH. by rewrite <-app_assoc.
    + rewrite ret_run, IH. done.
Qed.

Lemma parse_articles_run (B : Browser) (d : driver) (nodes : list article_node) :
  page_items (site B (current_url d)) = Value nodes →
  parse_articles B d
  = (Returned (omap node_result nodes), log_call EvFindElements d).
Proof.
  intros Hitems. unfold parse_articles. rewrite bind_run. unfold find_elements.
  rewrite Hitems. simpl. by rewrite parse_articles_loop_run.
Qed.

(** C7. On a page whose article nodes were found, [parse_articles]
    returns, and returns exactly the articles of the nodes on which
    [parse_article] returns, in page order: a node on which it raises,
    whatever the exception, is left out and the nodes after it are still
    parsed. *)
Theorem parse_articles_skips_failed_nodes (B : Browser) (d : driver)
    (nodes : list article_node) :
  page_items (site B (current_url d)) = Value nodes →
  parse_articles B d
  = (Returned (omap node_result nodes), log_call EvFindElements d) ∧
  ∀ pre bad suf e,
    nodes = pre ++ bad :: suf →
    (parse_article bad no_session).1 = Raised e →
    (parse_articles B d).1
    = Returned (omap node_result pre ++ omap node_result suf).
Proof.
  intros Hitems.
  pose proof (parse_articles_run B d nodes Hitems) as Hrun.
  split; [done|]. intros pre bad suf e -> Hbad. rewrite Hrun. simpl.
  rewrite omap_app. csimpl. unfold node_result at 2. by rewrite Hbad.
Qed.

Lemma parse_articles_skips_failed_nodes_witness :
  parse_articles one_page_browser (at_page linux_hard_1)
  = (Returned [Article "A" "https://habr.com/ru/articles/1/";
               Article "B" "https://habr.com/ru/articles/2/"],
     log_call EvFindElements (at_page linux_hard_1)).
Proof.
  apply (parse_articles_skips_failed_nodes one_page_browser
           (at_page linux_hard_1) demo_nodes).
  reflexivity.
Defined.

(** ** Opening a page ([open_habr_hub]) *)

Lemma open_habr_hub_absent (B : Browser) (hub_url difficulty url : string)
    (page_number : nat) (e : exn) (d : driver) :
  format_url B hub_url page_number difficulty = Value url →
  page_load (site B url) = None →
  page_marker (site B url) = Some e →
  open_habr_hub B hub_url page_number difficulty d
  = (Returned false,
     {| trace := trace d ++ [EvGet url; EvWaitMarker]; current_url := url;
        scrolls_done := 0; heights_read := 0 |}).
Proof.
  intros Hfmt Hload Hmarker. unfold open_habr_hub.
  rewrite bind_run, Hfmt. simpl. rewrite bind_run. unfold driver_get.
  rewrite Hload. simpl. unfold try_except. rewrite bind_run.
  unfold wait_for_marker. simpl. rewrite Hmarker. simpl.
  rewrite ?ret_run. unfold log_call. simpl. by rewrite <-app_assoc.
Qed.

Lemma open_habr_hub_present (B : Browser) (hub_url difficulty url : string)
    (page_number : nat) (d : driver) :
  format_url B hub_url page_number difficulty = Value url →
  page_load (site B url) = None →
  page_marker (site B url) = None →
  open_habr_hub B hub_url page_number difficulty d
  = (Returned true,
     {| trace := trace d ++ [EvGet url; EvWaitMarker]; current_url := url;
        scrolls_done := 0; heights_read := 0 |}).
Proof.
  intros Hfmt Hload Hmarker. unfold open_habr_hub.
  rewrite bind_run, Hfmt. simpl. rewrite bind_run. unfold driver_get.
  rewrite Hload. simpl. unfold try_except. rewrite bind_run.
  unfold wait_for_marker. simpl. rewrite Hmarker. simpl.
  rewrite ?ret_run. unfold log_call. simpl. by rewrite <-app_assoc.
Qed.

Lemma parse_hub_pages_absent (B : Browser) (fuel : nat)
    (hub_url difficulty url : string) (page_number : nat) (rest : list nat)
    (parsed : list article) (e : exn) (d : driver) :
  format_url B hub_url page_number difficulty = Value url →
  page_load (site B url) = None →
  page_marker (site B url) = Some e →
  parse_hub_pages B fuel hub_url difficulty (page_number :: rest) parsed d
  = (Returned parsed,
     {| trace := trace d ++ [EvGet url; EvWaitMarker]; current_url := url;
        scrolls_done := 0; heights_read := 0 |}).
Proof.
  intros Hfmt Hload Hmarker. cbn [parse_hub_pages].
  by rewrite bind_run, (open_habr_hub_absent _ _ _ url _ e).
Qed.

(** C10. Whatever exception the wait for the marker raises, a timeout or
    any other, [open_habr_hub] returns [False]; [parse_hub]'s page loop then
    returns what it has collected so far without visiting the remaining
    page numbers, and nothing is raised. *)
Theorem open_habr_hub_swallows_wait_errors (B : Browser) (fuel : nat)
    (hub_url difficulty url : string) (page_number : nat) (rest : list nat)
    (parsed : list article) (e : exn) (d : driver) :
  format_url B hub_url page_number difficulty = Value url →
  page_load (site B url) = None →
  page_marker (site B url) = Some e →
  (open_habr_hub B hub_url page_number difficulty d).1 = Returned false ∧
  (parse_hub_pages B fuel hub_url difficulty (page_number :: rest) parsed d).1
  = Returned parsed ∧
  trace (parse_hub_pages B fuel hub_url difficulty (page_number :: rest)
           parsed d).2
  = trace d ++ [EvGet url; EvWaitMarker].
Proof.
  intros Hfmt Hload Hmarker.
  rewrite (open_habr_hub_absent _ _ _ url _ e) by done.
  by rewrite (parse_hub_pages_absent _ _ _ _ url _ _ _ e).
Qed.

Lemma open_habr_hub_swallows_wait_errors_witness :
  (open_habr_hub dying_browser linux_hub 1 "/hard" no_session).1
  = Returned false ∧
  (parse_hub_pages dying_browser 3 linux_hub "/hard" [1; 2; 3] [] no_session).1
  = Returned [] ∧
  trace (parse_hub_pages dying_browser 3 linux_hub "/hard" [1; 2; 3] []
           no_session).2
  = trace no_session ++ [EvGet linux_hard_1; EvWaitMarker].
Proof.
  apply (open_habr_hub_swallows_wait_errors dying_browser 3 linux_hub "/hard"
           linux_hard_1 1 [2; 3] [] InvalidSessionIdException no_session);
    reflexivity.
Defined.

(** ** Crawling a hub ([parse_hub]) *)

Lemma initialize_driver_run (B : Browser) (d : driver) :
  start_firefox B = None → install_addon B = None →
  initialize_driver B d
  = (Returned (), log_call EvInstallAddon (log_call EvStart d)).
Proof.
  intros Hstart Haddon. unfold initialize_driver. rewrite bind_run.
  unfold webdriver_Firefox, driver_install_addon. by rewrite Hstart, Haddon.
Qed.

(** C4. When the marker is absent from page 1 (the wait on it raises), and
    the session starts and reaches that page, [parse_hub] returns the empty
    list having scrolled, measured and extracted nothing: it starts the
    session, opens page 1, waits, and quits. *)
Theorem parse_hub_first_page_absent (B : Browser) (fuel : nat)
    (hub_url difficulty url : string) (e : exn) :
  start_firefox B = None →
  install_addon B = None →
  format_url B hub_url 1 difficulty = Value url →
  page_load (site B url) = None →
  page_marker (site B url) = Some e →
  (run_parse_hub B fuel hub_url difficulty).1 = Returned [] ∧
  trace (run_parse_hub B fuel hub_url difficulty).2
  = [EvStart; EvInstallAddon; EvGet url; EvWaitMarker; EvQuit] ∧
  pages_extracted (trace (run_parse_hub B fuel hub_url difficulty).2) = 0 ∧
  scrolls (trace (run_parse_hub B fuel hub_url difficulty).2) = 0 ∧
  measurements (trace (run_parse_hub B fuel hub_url difficulty).2) = 0.
Proof.
  intros Hstart Haddon Hfmt Hload Hmarker.
  assert (Hrun : run_parse_hub B fuel hub_url difficulty
    = (Returned [],
       {| trace := [EvStart; EvInstallAddon; EvGet url; EvWaitMarker; EvQuit];
          current_url := url; scrolls_done := 0; heights_read := 0 |})).
  { unfold run_parse_hub, parse_hub.
    rewrite bind_run, initialize_driver_run by done.
    rewrite bind_run. change (seq 1 NUM_PAGES_PER_SEARCH) with (1 :: seq 2 15).
    by rewrite (parse_hub_pages_absent _ _ _ _ url _ _ _ e). }
  rewrite Hrun. done.
Qed.

Lemma parse_hub_first_page_absent_witness :
  (run_parse_hub empty_browser 2 linux_hub "/hard").1 = Returned [] ∧
  trace (run_parse_hub empty_browser 2 linux_hub "/hard").2
  = [EvStart; EvInstallAddon; EvGet linux_hard_1; EvWaitMarker; EvQuit] ∧
  pages_extracted (trace (run_parse_hub empty_browser 2 linux_hub "/hard").2) = 0 ∧
  scrolls (trace (run_parse_hub empty_browser 2 linux_hub "/hard").2) = 0 ∧
  measurements (trace (run_parse_hub empty_browser 2 linux_hub "/hard").2) = 0.
Proof.
  apply (parse_hub_first_page_absent empty_browser 2 linux_hub "/hard"
           linux_hard_1 TimeoutException); reflexivity.
Defined.

(** ** Scrolling ([scroll_to_load_articles]) *)

Section Scrolling.

Context (B : Browser) (u : string) (h : nat → Z) (hb sb : nat).

(** From the [hb]-th measurement and the [sb]-th scroll of page [u] on,
    every scroll succeeds and the measurements read [h 0], [h 1], ... *)
Hypothesis heights : ∀ n, page_height (site B u) (hb + n) = Value (h n).
Hypothesis scrolling : ∀ n, page_scroll (site B u) (sb + n) = None.

Lemma scroll_loop_step (fuel k : nat) (d : driver) :
  measured u hb sb k d →
  ∃ d', measured u hb sb (S k) d' ∧
        scroll_loop B (S fuel) (h k) d
        = if decide (h (S k) = h k) then (Returned (), d')
          else scroll_loop B fuel (h (S k)) d'.
Proof.
  intros (Hu & Hh & Hs). cbn [scroll_loop]. rewrite !bind_run.
  unfold execute_scroll at 1. rewrite Hu, Hs, scrolling. simpl.
  rewrite bind_run. unfold execute_height at 1. simpl.
  rewrite Hh, heights. simpl. eexists. split; [|by destruct (decide _)].
  repeat split; simpl; lia.
Qed.

Lemma scroll_loop_returns (n : nat) :
  ∀ k d fuel, measured u hb sb k d → n < fuel → h (S (k + n)) = h (k + n) →
    (scroll_loop B fuel (h k) d).1 = Returned ().
Proof.
  induction n as [|n IH]; intros k d [|fuel] Hd Hfuel Heq; try lia;
    destruct (scroll_loop_step fuel k d Hd) as (d' & Hd' & ->).
  - rewrite Nat.add_0_r in Heq. by rewrite decide_True.
  - destruct (decide (h (S k) = h k)); [done|].
    apply IH; [done|lia|]. by rewrite Nat.add_succ_comm.
Qed.

Lemma scroll_loop_stable (fuel : nat) :
  ∀ k d, measured u hb sb k d → (scroll_loop B fuel (h k) d).1 = Returned () →
    ∃ n, h (S (k + n)) = h (k + n).
Proof.
  induction fuel as [|fuel IH]; intros k d Hd Hret; [done|].
  destruct (scroll_loop_step fuel k d Hd) as (d' & Hd' & Hstep).
  rewrite Hstep in Hret. destruct (decide (h (S k) = h k)) as [Heq|Hne].
  - exists 0. by rewrite Nat.add_0_r.
  - destruct (IH (S k) d' Hd' Hret) as (n & Hn). exists (S n).
    by rewrite <-Nat.add_succ_comm.
Qed.

Lemma scroll_loop_never (fuel : nat) :
  (∀ n, h (S n) ≠ h n) →
  ∀ k d, measured u hb sb k d → (scroll_loop B fuel (h k) d).1 = OutOfFuel.
Proof.
  intros Hne. induction fuel as [|fuel IH]; intros k d Hd; [done|].
  destruct (scroll_loop_step fuel k d Hd) as (d' & Hd' & ->).
  rewrite decide_False by apply Hne. by apply IH.
Qed.

Lemma scroll_first_measurement (fuel : nat) (d : driver) :
  current_url d = u → heights_read d = hb → scrolls_done d = sb →
  ∃ d', measured u hb sb 0 d' ∧
        scroll_to_load_articles B fuel d = scroll_loop B fuel (h 0) d'.
Proof.
  intros Hu Hh Hs. unfold scroll_to_load_articles. rewrite bind_run.
  unfold execute_height at 1. rewrite Hu, Hh.
  pose proof (heights 0) as H0. rewrite Nat.add_0_r in H0. rewrite H0. simpl.
  eexists. split; [|reflexivity]. repeat split; simpl; lia.
Qed.

End Scrolling.

(** C5. With every scroll and measurement on the page answering, the
    scroll loop finishes (for some amount of fuel) exactly when two
    consecutive height measurements are equal; there is no cap, so on a
    page whose height differs at every measurement no amount of fuel lets
    it finish. *)
Theorem scroll_terminates_iff_stable (B : Browser) (d : driver) (h : nat → Z) :
  (∀ n, page_height (site B (current_url d)) (heights_read d + n)
        = Value (h n)) →
  (∀ n, page_scroll (site B (current_url d)) (scrolls_done d + n) = None) →
  ((∃ fuel, (scroll_to_load_articles B fuel d).1 = Returned ())
   ↔ ∃ n, h (S n) = h n) ∧
  ((∀ n, h (S n) ≠ h n) →
   ∀ fuel, (scroll_to_load_articles B fuel d).1 = OutOfFuel).
Proof.
  intros Hh Hs.
  set (run fuel := scroll_first_measurement B (current_url d) h
                     (heights_read d) (scrolls_done d) Hh fuel d
                     eq_refl eq_refl eq_refl).
  split; [split|].
  - intros (fuel & Hret). destruct (run fuel) as (d' & Hd' & Hrun).
    rewrite Hrun in Hret.
    destruct (scroll_loop_stable B _ h _ _ Hh Hs fuel 0 d' Hd' Hret) as (n & Hn).
    by exists n.
  - intros (n & Hn). exists (S n). destruct (run (S n)) as (d' & Hd' & ->).
    apply (scroll_loop_returns B _ h _ _ Hh Hs n 0 d' (S n) Hd'); [lia|done].
  - intros Hne fuel. destruct (run fuel) as (d' & Hd' & ->).
    by apply (scroll_loop_never B _ h _ _ Hh Hs fuel Hne 0 d' Hd').
Qed.

Lemma scroll_terminates_iff_stable_witness :
  ((∃ fuel, (scroll_to_load_articles settling_browser fuel
               (at_page linux_hard_1)).1 = Returned ())
   ↔ ∃ n, Z.of_nat (S n `min` 3) = Z.of_nat (n `min` 3)) ∧
  ((∀ n, Z.of_nat (S n `min` 3) ≠ Z.of_nat (n `min` 3)) →
   ∀ fuel, (scroll_to_load_articles settling_browser fuel
              (at_page linux_hard_1)).1 = OutOfFuel).
Proof.
  apply (scroll_terminates_iff_stable settling_browser (at_page linux_hard_1)
           (λ n, Z.of_nat (n `min` 3))); intros n; reflexivity.
Defined.

Example settling_page_scroll :
  (scroll_to_load_articles settling_browser 4 (at_page linux_hard_1)).1
  = Returned () ∧
  (scroll_to_load_articles settling_browser 3 (at_page linux_hard_1)).1
  = OutOfFuel.
Proof. split; reflexivity. Qed.

Example growing_page_scroll :
  (scroll_to_load_articles growing_browser 200 (at_page linux_hard_1)).1
  = OutOfFuel.
Proof. by vm_compute. Qed.

(** *** What the pieces of [parse_hub] add to the trace *)

Lemma emits_scroll_loop (B : Browser) P (fuel : nat) (last_height : Z) :
  P EvScrollTo → P EvHeight → emits P (scroll_loop B fuel last_height).
Proof.
  intros Hs Hh. revert last_height.
  induction fuel as [|fuel IH]; intros last_height; cbn [scroll_loop].
  - apply emits_out_of_fuel.
  - script_step. destruct (decide _); eauto with script.
Qed.

Lemma emits_scroll_to_load_articles (B : Browser) P (fuel : nat) :
  P EvScrollTo → P EvHeight → emits P (scroll_to_load_articles B fuel).
Proof.
  intros Hs Hh. unfold scroll_to_load_articles. script_step.
  by apply emits_scroll_loop.
Qed.

Lemma stays_scroll_to_load_articles (B : Browser) (fuel : nat) :
  stays (scroll_to_load_articles B fuel).
Proof.
  unfold scroll_to_load_articles. script_step.
  match goal with |- stays (scroll_loop _ _ ?z) => generalize z end.
  induction fuel as [|fuel IH]; intros z; cbn [scroll_loop].
  - apply stays_out_of_fuel.
  - script_step. destruct (decide _); eauto with script.
Qed.

Lemma emits_parse_articles (B : Browser) P :
  P EvFindElements → emits P (parse_articles B).
Proof.
  intros Hf. unfold parse_articles. script_step. intros d.
  rewrite parse_articles_loop_run. exists []. by rewrite app_nil_r.
Qed.

Lemma emits_open_habr_hub (B : Browser) P hub_url page_number difficulty :
  (∀ url, P (EvGet url)) → P EvWaitMarker →
  emits P (open_habr_hub B hub_url page_number difficulty).
Proof. intros Hg Hw. unfold open_habr_hub. script_step. Qed.

Lemma emits_parse_hub_pages (B : Browser) P fuel hub_url difficulty
    (page_numbers : list nat) :
  (∀ url, P (EvGet url)) → P EvWaitMarker → P EvScrollTo → P EvHeight →
  P EvFindElements →
  ∀ parsed, emits P (parse_hub_pages B fuel hub_url difficulty page_numbers
                       parsed).
Proof.
  intros Hg Hw Hs Hh Hf.
  induction page_numbers as [|p rest IH]; intros parsed;
    cbn [parse_hub_pages]; [apply emits_ret|].
  apply emits_bind; [by apply emits_open_habr_hub|]. intros [|]; [|apply emits_ret].
  apply emits_bind; [by apply emits_scroll_to_load_articles|]. intros _.
  apply emits_bind; [by apply emits_parse_articles|]. intros found. apply IH.
Qed.

Lemma emits_initialize_driver (B : Browser) P :
  P EvStart → P EvInstallAddon → emits P (initialize_driver B).
Proof. intros H1 H2. unfold initialize_driver. script_step. Qed.

(** C6 fails as stated: with page 1 unreachable, the session is started
    and [parse_hub] ends by raising, yet the session is never closed. *)
Lemma parse_hub_leaks_session_on_error :
  ¬ ∀ (B : Browser) (fuel : nat) (hub_url difficulty : string),
      EvStart ∈ trace (run_parse_hub B fuel hub_url difficulty).2 →
      (run_parse_hub B fuel hub_url difficulty).1 ≠ OutOfFuel →
      quits (trace (run_parse_hub B fuel hub_url difficulty).2) = 1.
Proof.
  intros Hclaim.
  specialize (Hclaim failing_browser 1 linux_hub "/hard").
  assert (Hrun : run_parse_hub failing_browser 1 linux_hub "/hard"
    = (Raised WebDriverException,
       {| trace := [EvStart; EvInstallAddon; EvGet linux_hard_1];
          current_url := linux_hard_1; scrolls_done := 0;
          heights_read := 0 |})) by reflexivity.
  rewrite Hrun in Hclaim. simpl in Hclaim.
  assert (0 = 1) as Habs; [|discriminate Habs].
  apply Hclaim; [left|done].
Qed.

(** *** Pagination *)

Lemma scroll_returns_when_settles (B : Browser) (N fuel : nat) (d : driver) :
  page_settles (site B (current_url d)) N →
  heights_read d = 0 → scrolls_done d = 0 → N ≤ fuel →
  (scroll_to_load_articles B fuel d).1 = Returned ().
Proof.
  intros (h & Hh & Hs & n & Hn & Heq) Hh0 Hs0 Hfuel.
  destruct (scroll_first_measurement B (current_url d) h 0 0 Hh fuel d)
    as (d' & Hd' & ->); [done..|].
  apply (scroll_loop_returns B (current_url d) h 0 0 Hh Hs n 0 d' fuel Hd');
    [lia|done].
Qed.

Lemma scroll_events_not (e : event) (evs : list event) :
  e ≠ EvScrollTo → e ≠ EvHeight →
  Forall is_scroll_event evs → Forall (λ x, x ≠ e) evs.
Proof.
  intros H1 H2 Hevs. eapply Forall_impl; [exact Hevs|].
  intros x [->| ->]; congruence.
Qed.

(** One existing page: open, scroll, extract. *)
Lemma parse_hub_pages_step (B : Browser) (fuel N : nat)
    (hub_url difficulty url : string) (p : nat) (rest : list nat)
    (parsed : list article) (d : driver) :
  N ≤ fuel →
  page_exists B N hub_url difficulty p url →
  ∃ found d',
    parse_hub_pages B fuel hub_url difficulty (p :: rest) parsed d
    = parse_hub_pages B fuel hub_url difficulty rest (parsed ++ found) d' ∧
    pages_extracted (trace d') = S (pages_extracted (trace d)) ∧
    navigated (trace d') = navigated (trace d) ++ [url].
Proof.
  intros Hfuel (Hfmt & Hload & Hmarker & Hsettles & nodes & Hitems).
  cbn [parse_hub_pages].
  rewrite bind_run, (open_habr_hub_present _ _ _ url) by done.
  set (d1 := {| trace := trace d ++ [EvGet url; EvWaitMarker];
                current_url := url; scrolls_done := 0; heights_read := 0 |}).
  rewrite bind_run.
  pose proof (scroll_returns_when_settles B N fuel d1 Hsettles eq_refl eq_refl
                Hfuel) as Hret.
  destruct (emits_scroll_to_load_articles B is_scroll_event fuel
              (or_introl eq_refl) (or_intror eq_refl) d1)
    as (evs & Htr & Hevs).
  pose proof (stays_scroll_to_load_articles B fuel d1) as Hurl.
  destruct (scroll_to_load_articles B fuel d1) as [o d2]. simpl in *.
  subst o. rewrite bind_run, (parse_articles_run B d2 nodes)
    by (by rewrite Hurl).
  eexists _, _. split; [reflexivity|]. simpl. rewrite Htr.
  unfold pages_extracted. rewrite !navigated_app, !count_event_app.
  rewrite (navigated_scroll_events evs Hevs).
  rewrite (count_event_absent _ evs) by (by apply scroll_events_not).
  simpl. split; [|by rewrite !app_nil_r].
  change (count_event EvFindElements [EvGet url; EvWaitMarker]) with 0.
  change (count_event EvFindElements [EvFindElements]) with 1. lia.
Qed.


Lemma listing_settles (nodes : list article_node) : page_settles (listing nodes) 1.
Proof. exists (λ _, 1000%Z). split_and!; [done..|]. exists 0. by split; [lia|]. Qed.


Lemma one_page_browser_absent :
  page_absent one_page_browser linux_hub "/hard" 2 (linux_hard_url 2).
Proof. split_and!; [reflexivity..|by eexists]. Qed.


(** ** The join in [main] *)

Lemma collect_results_all_returned (completed : list (outcome (list article)))
    (parsed : list article) :
  forallb returned completed = true →
  collect_results completed parsed = Returned (parsed ++ results_of completed).
Proof.
  revert parsed. induction completed as [|[r|e|] completed IH];
    intros parsed Hall; simpl in *; try done.
  - by rewrite app_nil_r.
  - rewrite IH by done. unfold results_of. csimpl.
    destruct r; [done|]. by rewrite <-app_assoc.
Qed.


Lemma lookup_range {A} (pre l : list A) :
  omap (λ i, (pre ++ l) !! i) (seq (length pre) (length l)) = l.
Proof.
  revert pre. induction l as [|x l IH]; intros pre; [done|].
  csimpl. rewrite list_lookup_middle by done. f_equal.
  specialize (IH (pre ++ [x])).
  rewrite length_app, <-app_assoc, Nat.add_1_r in IH. exact IH.
Qed.

Lemma completed_permutation {A} (l : list A) (order : list nat) :
  order ≡ₚ seq 0 (length l) → omap (λ i, l !! i) order ≡ₚ l.
Proof. intros ->. pose proof (lookup_range [] l) as H. simpl in H. by rewrite H. Qed.

Lemma forallb_elem_of {A} (p : A → bool) (l : list A) :
  forallb p l = true ↔ ∀ x, x ∈ l → p x = true.
Proof.
  rewrite forallb_forall. by setoid_rewrite list_elem_of_In.
Qed.

Lemma forallb_permutation {A} (p : A → bool) (l k : list A) :
  l ≡ₚ k → forallb p l = true → forallb p k = true.
Proof.
  rewrite !forallb_elem_of. intros Hperm Hl x Hx. apply Hl. by rewrite Hperm.
Qed.

Lemma results_of_subset (l : list (outcome (list article))) (r : list article) :
  Returned r ∈ l → r ⊆ results_of l.
Proof.
  intros Hin a Ha. unfold results_of. apply list_elem_of_bind.
  exists (Returned r). by split.
Qed.




Example failing_browser_futures :
  futures failing_browser 1 !! 6 = Some (Raised WebDriverException) ∧
  futures failing_browser 1 !! 9
  = Some (Returned [Article "A" "https://habr.com/ru/articles/1/";
                    Article "B" "https://habr.com/ru/articles/2/"]).
Proof. split; by vm_compute. Qed.

Example cpu_threads_unset_runs :
  (main cpython_executor_init two_hub_browser ∅ 1 (seq 0 14) "t") ≠ Raised TypeError ∧
  main cpython_executor_init two_hub_browser {["CPU_THREADS" := "8"]} 1
    (seq 0 14) "t" = Raised TypeError.
Proof. split; by vm_compute. Qed.

(** * Further properties *)

(** ** The writer: header, row count, provenance, duplicates *)

Lemma unique_links_remove_dups (arts : list article) :
  elements (unique_links arts) ≡ₚ remove_dups (link <$> arts).
Proof.
  unfold unique_links.
  replace (list_to_set (link <$> arts) : gset string)
    with (list_to_set (remove_dups (link <$> arts)) : gset string).
  - apply elements_list_to_set, NoDup_remove_dups.
  - apply leibniz_equiv. intros x.
    by rewrite !elem_of_list_to_set, elem_of_remove_dups.
Qed.

(** X1. The file starts with the header row [Title, Link]; the number of
    data rows is the number of distinct links of the input; for the empty
    input the header is the whole file. *)
Theorem save_to_csv_header_and_row_count (arts : list article) (fn : string) :
  csv_rows (save_to_csv arts fn)
  = ["Title"; "Link"] :: data_rows (save_to_csv arts fn) ∧
  length (data_rows (save_to_csv arts fn))
  = length (remove_dups (link <$> arts)) ∧
  csv_rows (save_to_csv [] fn) = [["Title"; "Link"]].
Proof.
  split_and!; [done| |done].
  rewrite <-(length_fmap row_link), data_rows_links, length_fmap.
  by rewrite unique_links_remove_dups.
Qed.

(** X2. Every data row is the pair (title, link) of an article of the
    input: the writer invents no row and never mixes the title of one
    article with the link of another. *)
Theorem save_to_csv_rows_from_input (arts : list article) (fn : string) :
  Forall (λ r, ∃ a, a ∈ arts ∧ r = [title a; link a])
    (data_rows (save_to_csv arts fn)).
Proof.
  apply Forall_forall. intros r Hr. unfold data_rows, save_to_csv in Hr.
  simpl in Hr. apply list_elem_of_omap in Hr as (l & _ & Hrow).
  unfold row_for, next_with_link in Hrow.
  destruct (find _ arts) as [a|] eqn:Hfind; [|done].
  apply find_some in Hfind as [Hin _]. exists a.
  split; [by apply list_elem_of_In|congruence].
Qed.

Lemma next_with_link_app (arts extra : list article) (l : string) :
  l ∈ link <$> arts →
  next_with_link (arts ++ extra) l = next_with_link arts l.
Proof.
  unfold next_with_link. induction arts as [|b arts IH]; intros Hin.
  - by apply elem_of_nil in Hin.
  - simpl. destruct (String.eqb (link b) l) eqn:Hb; [done|].
    apply IH. apply String.eqb_neq in Hb.
    apply elem_of_cons in Hin as [?|?]; [congruence|done].
Qed.

(** X3. Articles appended after the fact whose links all occur already
    change nothing: the file written is the same, row for row. *)
Theorem save_to_csv_ignores_later_duplicates (arts extra : list article)
    (fn : string) :
  (∀ b, b ∈ extra → link b ∈ link <$> arts) →
  save_to_csv (arts ++ extra) fn = save_to_csv arts fn.
Proof.
  intros Hdup.
  assert (Hset : unique_links (arts ++ extra) = unique_links arts).
  { unfold unique_links. apply leibniz_equiv. intros x.
    rewrite !elem_of_list_to_set, fmap_app, elem_of_app.
    split; [|by left]. intros [?|(b & -> & Hb)%list_elem_of_fmap]; [done|].
    by apply Hdup. }
  unfold save_to_csv. rewrite Hset. do 2 f_equal.
  apply list_omap_ext, Forall2_same_length_lookup. split; [done|].
  intros i l l' Hl Hl'. assert (l' = l) as -> by congruence.
  unfold row_for. rewrite next_with_link_app; [done|].
  apply list_elem_of_lookup_2 in Hl. apply elem_of_elements in Hl.
  by apply elem_of_list_to_set in Hl.
Qed.

Lemma save_to_csv_ignores_later_duplicates_witness :
  save_to_csv ([Article "A" "L1"; Article "C" "L2"] ++ [Article "B" "L1"])
    "articles.csv"
  = save_to_csv [Article "A" "L1"; Article "C" "L2"] "articles.csv".
Proof.
  apply (save_to_csv_ignores_later_duplicates
           [Article "A" "L1"; Article "C" "L2"] [Article "B" "L1"]
           "articles.csv").
  intros b Hb. apply list_elem_of_singleton in Hb as ->. simpl. left.
Defined.

Lemma next_with_link_unique (arts : list article) (a : article) :
  NoDup (link <$> arts) → a ∈ arts → next_with_link arts (link a) = Some a.
Proof.
  unfold next_with_link. induction arts as [|b arts IH]; intros Hnd Hin.
  - by apply elem_of_nil in Hin.
  - rewrite fmap_cons in Hnd. apply NoDup_cons in Hnd as [Hb Hnd]. simpl.
    apply elem_of_cons in Hin as [->|Hin].
    + by rewrite (proj2 (String.eqb_eq _ _) eq_refl).
    + destruct (String.eqb (link b) (link a)) eqn:Heq; [|by apply IH].
      apply String.eqb_eq in Heq. destruct Hb. rewrite Heq.
      by apply list_elem_of_fmap_2.
Qed.

(** X4. When the links of the input are pairwise different nothing is
    dropped: the data rows are the input articles, one row each, up to
    order. *)
Theorem save_to_csv_keeps_distinct_articles (arts : list article)
    (fn : string) :
  NoDup (link <$> arts) →
  data_rows (save_to_csv arts fn) ≡ₚ (λ a, [title a; link a]) <$> arts.
Proof.
  intros Hnd. unfold data_rows, save_to_csv, unique_links. simpl.
  rewrite (elements_list_to_set (C := gset string) _ Hnd).
  assert (Hsub : ∀ l, l ⊆ arts →
    omap (row_for arts) (link <$> l) = (λ a, [title a; link a]) <$> l).
  { induction l as [|a l IH]; intros Hl; [done|]. csimpl.
    unfold row_for at 1. rewrite next_with_link_unique by set_solver.
    f_equal. apply IH. set_solver. }
  by rewrite Hsub.
Qed.

Lemma save_to_csv_keeps_distinct_articles_witness :
  data_rows (save_to_csv [Article "A" "L1"; Article "C" "L2"] "articles.csv")
  ≡ₚ (λ a, [title a; link a]) <$> [Article "A" "L1"; Article "C" "L2"].
Proof.
  apply (save_to_csv_keeps_distinct_articles
           [Article "A" "L1"; Article "C" "L2"] "articles.csv").
  apply (bool_decide_unpack _). vm_compute. exact I.
Defined.

(** ** Failures inside a hub crawl *)

Lemma run_parse_hub_no_firefox (B : Browser) (fuel : nat)
    (hub_url difficulty : string) (e : exn) :
  start_firefox B = Some e →
  run_parse_hub B fuel hub_url difficulty
  = (Raised e, log_call EvStart no_session).
Proof.
  intros Hstart. unfold run_parse_hub, parse_hub, initialize_driver.
  rewrite !bind_run. unfold webdriver_Firefox. by rewrite Hstart.
Qed.

Lemma run_parse_hub_no_addon (B : Browser) (fuel : nat)
    (hub_url difficulty : string) (e : exn) :
  start_firefox B = None →
  install_addon B = Some e →
  run_parse_hub B fuel hub_url difficulty
  = (Raised e, log_call EvInstallAddon (log_call EvStart no_session)).
Proof.
  intros Hstart Haddon. unfold run_parse_hub, parse_hub, initialize_driver.
  rewrite !bind_run. unfold webdriver_Firefox. rewrite Hstart. simpl.
  unfold driver_install_addon. by rewrite Haddon.
Qed.

Lemma run_parse_hub_started (B : Browser) (fuel : nat)
    (hub_url difficulty : string) :
  start_firefox B = None →
  install_addon B = None →
  run_parse_hub B fuel hub_url difficulty
  = match parse_hub_pages B fuel hub_url difficulty
            (seq 1 NUM_PAGES_PER_SEARCH) []
            (log_call EvInstallAddon (log_call EvStart no_session)) with
    | (Returned parsed, d) => (Returned parsed, log_call EvQuit d)
    | other => other
    end.
Proof.
  intros Hstart Haddon. unfold run_parse_hub, parse_hub.
  rewrite bind_run, initialize_driver_run by done. rewrite bind_run.
  by destruct (parse_hub_pages _ _ _ _ _ _ _) as [[?|?|] ?].
Qed.

(** X5. When [webdriver.Firefox] raises, [parse_hub] raises the same
    exception at once: no extension is installed, no page is opened and
    there is no session to close. *)
Theorem parse_hub_firefox_start_failure (B : Browser) (fuel : nat)
    (hub_url difficulty : string) (e : exn) :
  start_firefox B = Some e →
  (run_parse_hub B fuel hub_url difficulty).1 = Raised e ∧
  trace (run_parse_hub B fuel hub_url difficulty).2 = [EvStart].
Proof.
  intros Hstart. by rewrite (run_parse_hub_no_firefox B _ _ _ e Hstart).
Qed.

Lemma parse_hub_firefox_start_failure_witness :
  (run_parse_hub no_firefox_browser 1 linux_hub "/hard").1
  = Raised WebDriverException ∧
  trace (run_parse_hub no_firefox_browser 1 linux_hub "/hard").2 = [EvStart].
Proof.
  apply (parse_hub_firefox_start_failure no_firefox_browser 1 linux_hub "/hard"
           WebDriverException).
  reflexivity.
Defined.

(** X6. When Firefox starts but [install_addon] raises, [parse_hub] raises
    that exception with the session started, no page opened and the
    session never closed. *)
Theorem parse_hub_addon_install_failure (B : Browser) (fuel : nat)
    (hub_url difficulty : string) (e : exn) :
  start_firefox B = None →
  install_addon B = Some e →
  (run_parse_hub B fuel hub_url difficulty).1 = Raised e ∧
  trace (run_parse_hub B fuel hub_url difficulty).2
  = [EvStart; EvInstallAddon].
Proof.
  intros Hstart Haddon.
  by rewrite (run_parse_hub_no_addon B _ _ _ e Hstart Haddon).
Qed.

Lemma parse_hub_addon_install_failure_witness :
  (run_parse_hub no_addon_browser 1 linux_hub "/hard").1
  = Raised WebDriverException ∧
  trace (run_parse_hub no_addon_browser 1 linux_hub "/hard").2
  = [EvStart; EvInstallAddon].
Proof.
  apply (parse_hub_addon_install_failure no_addon_browser 1 linux_hub "/hard"
           WebDriverException); reflexivity.
Defined.

(** X7. When formatting the URL of a page raises (a template with a field
    the script does not supply, say), the page loop raises that exception
    without any driver call, and the articles collected from earlier pages
    are not returned. *)
Theorem format_error_propagates (B : Browser) (fuel : nat)
    (hub_url difficulty : string) (page_number : nat) (rest : list nat)
    (parsed : list article) (e : exn) (d : driver) :
  format_url B hub_url page_number difficulty = Throws e →
  open_habr_hub B hub_url page_number difficulty d = (Raised e, d) ∧
  parse_hub_pages B fuel hub_url difficulty (page_number :: rest) parsed d
  = (Raised e, d).
Proof.
  intros Hfmt.
  assert (Hopen : open_habr_hub B hub_url page_number difficulty d
                  = (Raised e, d)).
  { unfold open_habr_hub. by rewrite bind_run, Hfmt. }
  split; [done|]. cbn [parse_hub_pages]. by rewrite bind_run, Hopen.
Qed.

Lemma format_error_propagates_witness :
  open_habr_hub one_page_browser bad_template 1 "/hard" no_session
  = (Raised KeyError, no_session) ∧
  parse_hub_pages one_page_browser 1 bad_template "/hard" [1; 2] [] no_session
  = (Raised KeyError, no_session).
Proof.
  apply (format_error_propagates one_page_browser 1 bad_template "/hard" 1 [2]
           [] KeyError no_session).
  reflexivity.
Defined.

(** X8. An exception raised by [driver.get] is not taken for a missing
    page: [open_habr_hub] raises it (the [try] only covers the wait), the
    marker is never waited for, and the page loop raises it too, dropping
    the articles collected from earlier pages. *)
Theorem navigation_error_propagates (B : Browser) (fuel : nat)
    (hub_url difficulty url : string) (page_number : nat) (rest : list nat)
    (parsed : list article) (e : exn) (d : driver) :
  format_url B hub_url page_number difficulty = Value url →
  page_load (site B url) = Some e →
  (open_habr_hub B hub_url page_number difficulty d).1 = Raised e ∧
  (parse_hub_pages B fuel hub_url difficulty (page_number :: rest) parsed d).1
  = Raised e ∧
  trace (parse_hub_pages B fuel hub_url difficulty (page_number :: rest)
           parsed d).2
  = trace d ++ [EvGet url].
Proof.
  intros Hfmt Hload.
  assert (Hopen : open_habr_hub B hub_url page_number difficulty d
    = (Raised e, {| trace := trace d ++ [EvGet url]; current_url := url;
                    scrolls_done := 0; heights_read := 0 |})).
  { unfold open_habr_hub. rewrite bind_run, Hfmt. simpl. rewrite bind_run.
    unfold driver_get. by rewrite Hload. }
  assert (Hpages : parse_hub_pages B fuel hub_url difficulty
                     (page_number :: rest) parsed d
    = (Raised e, {| trace := trace d ++ [EvGet url]; current_url := url;
                    scrolls_done := 0; heights_read := 0 |})).
  { cbn [parse_hub_pages]. by rewrite bind_run, Hopen. }
  by rewrite Hopen, Hpages.
Qed.

Lemma navigation_error_propagates_witness :
  (open_habr_hub failing_browser linux_hub 1 "/hard" no_session).1
  = Raised WebDriverException ∧
  (parse_hub_pages failing_browser 1 linux_hub "/hard" [1; 2]
     [Article "A" "L1"] no_session).1
  = Raised WebDriverException ∧
  trace (parse_hub_pages failing_browser 1 linux_hub "/hard" [1; 2]
           [Article "A" "L1"] no_session).2
  = trace no_session ++ [EvGet linux_hard_1].
Proof.
  apply (navigation_error_propagates failing_browser 1 linux_hub "/hard"
           linux_hard_1 1 [2] [Article "A" "L1"] WebDriverException
           no_session); reflexivity.
Defined.

(** X9. The handler in [parse_articles] covers the parsing of single nodes
    only: when the lookup of the article nodes raises on a page that was
    opened and scrolled, [parse_articles] raises that exception, and so
    does the page loop, right after the lookup, dropping the articles
    collected from earlier pages. *)
Theorem lookup_error_propagates (B : Browser) (fuel N : nat)
    (hub_url difficulty url : string) (page_number : nat) (rest : list nat)
    (parsed : list article) (e : exn) (d : driver) :
  N ≤ fuel →
  format_url B hub_url page_number difficulty = Value url →
  page_load (site B url) = None →
  page_marker (site B url) = None →
  page_settles (site B url) N →
  page_items (site B url) = Throws e →
  (∀ d', current_url d' = url →
         parse_articles B d' = (Raised e, log_call EvFindElements d')) ∧
  (parse_hub_pages B fuel hub_url difficulty (page_number :: rest) parsed d).1
  = Raised e ∧
  last (trace (parse_hub_pages B fuel hub_url difficulty (page_number :: rest)
                 parsed d).2)
  = Some EvFindElements.
Proof.
  intros Hfuel Hfmt Hload Hmarker Hsettles Hitems.
  assert (Hpa : ∀ d', current_url d' = url →
    parse_articles B d' = (Raised e, log_call EvFindElements d')).
  { intros d' Hd'. unfold parse_articles. rewrite bind_run.
    unfold find_elements. by rewrite Hd', Hitems. }
  split; [done|]. cbn [parse_hub_pages].
  rewrite bind_run, (open_habr_hub_present _ _ _ url) by done.
  set (d1 := {| trace := trace d ++ [EvGet url; EvWaitMarker];
                current_url := url; scrolls_done := 0; heights_read := 0 |}).
  rewrite bind_run.
  pose proof (scroll_returns_when_settles B N fuel d1 Hsettles eq_refl eq_refl
                Hfuel) as Hret.
  pose proof (stays_scroll_to_load_articles B fuel d1) as Hurl.
  destruct (scroll_to_load_articles B fuel d1) as [o d2]. simpl in *.
  subst o. rewrite bind_run, (Hpa d2 Hurl). simpl. split; [done|].
  apply last_snoc.
Qed.

Lemma lookup_error_propagates_witness :
  (∀ d', current_url d' = linux_hard_1 →
         parse_articles lookup_failing_browser d'
         = (Raised StaleElementReferenceException,
            log_call EvFindElements d')) ∧
  (parse_hub_pages lookup_failing_browser 1 linux_hub "/hard" [1; 2]
     [Article "A" "L1"] no_session).1
  = Raised StaleElementReferenceException ∧
  last (trace (parse_hub_pages lookup_failing_browser 1 linux_hub "/hard"
                 [1; 2] [Article "A" "L1"] no_session).2)
  = Some EvFindElements.
Proof.
  apply (lookup_error_propagates lookup_failing_browser 1 1 linux_hub "/hard"
           linux_hard_1 1 [2] [Article "A" "L1"]
           StaleElementReferenceException no_session);
    try reflexivity.
  exists (λ _, 1000%Z). split_and!; [reflexivity..|].
  exists 0. split; [lia|reflexivity].
Defined.

(** ** How much scrolling is done *)

Section ScrollTrace.

Context (B : Browser) (u : string) (h : nat → Z) (hb sb : nat).

Hypothesis heights : ∀ n, page_height (site B u) (hb + n) = Value (h n).
Hypothesis scrolling : ∀ n, page_scroll (site B u) (sb + n) = None.

Lemma scroll_loop_round (fuel k : nat) (d : driver) :
  measured u hb sb k d →
  ∃ d', measured u hb sb (S k) d' ∧
        trace d' = trace d ++ [EvScrollTo; EvHeight] ∧
        scroll_loop B (S fuel) (h k) d
        = if decide (h (S k) = h k) then (Returned (), d')
          else scroll_loop B fuel (h (S k)) d'.
Proof.
  intros (Hu & Hh & Hs). cbn [scroll_loop]. rewrite !bind_run.
  unfold execute_scroll at 1. rewrite Hu, Hs, scrolling. simpl.
  rewrite bind_run. unfold execute_height at 1. simpl.
  rewrite Hh, heights. simpl. eexists. split_and!; [..|by destruct (decide _)].
  - repeat split; simpl; lia.
  - simpl. by rewrite <-app_assoc.
Qed.

Lemma scroll_loop_rounds (n : nat) :
  ∀ k d fuel, measured u hb sb k d → n < fuel →
    (∀ i, i < n → h (S (k + i)) ≠ h (k + i)) →
    h (S (k + n)) = h (k + n) →
    ∃ d', scroll_loop B fuel (h k) d = (Returned (), d') ∧
          trace d' = trace d ++ scroll_rounds (S n).
Proof.
  induction n as [|n IH]; intros k d [|fuel] Hd Hfuel Hne Heq; try lia;
    destruct (scroll_loop_round fuel k d Hd) as (d' & Hd' & Htr & ->).
  - rewrite Nat.add_0_r in Heq. rewrite decide_True by done.
    exists d'. split; [done|]. by rewrite Htr.
  - rewrite decide_False
      by (specialize (Hne 0); rewrite Nat.add_0_r in Hne; apply Hne; lia).
    destruct (IH (S k) d' fuel Hd') as (d'' & -> & Htr'); [lia| |..].
    + intros i Hi. rewrite Nat.add_succ_comm. apply Hne. lia.
    + by rewrite Nat.add_succ_comm.
    + exists d''. split; [done|]. rewrite Htr', Htr, <-app_assoc. done.
Qed.

End ScrollTrace.

Lemma count_scroll_rounds (m : nat) :
  count_event EvScrollTo (scroll_rounds m) = m.
Proof.
  induction m as [|m IH]; [done|].
  change (scroll_rounds (S m)) with ([EvScrollTo; EvHeight] ++ scroll_rounds m).
  rewrite count_event_app, IH. done.
Qed.

(** X10. If the height first repeats at measurement [n + 1] (all earlier
    consecutive measurements differ), the scroll loop returns after exactly
    [n + 1] scrolls and [n + 2] measurements, given fuel for them: one
    measurement, then [n + 1] rounds of scroll-and-measure.  A page of
    fixed height is scrolled once. *)
Theorem scroll_stops_at_first_repeat (B : Browser) (d : driver) (h : nat → Z)
    (n fuel : nat) :
  (∀ i, page_height (site B (current_url d)) (heights_read d + i)
        = Value (h i)) →
  (∀ i, page_scroll (site B (current_url d)) (scrolls_done d + i) = None) →
  (∀ i, i < n → h (S i) ≠ h i) →
  h (S n) = h n →
  n < fuel →
  (scroll_to_load_articles B fuel d).1 = Returned () ∧
  trace (scroll_to_load_articles B fuel d).2
  = trace d ++ EvHeight :: scroll_rounds (S n) ∧
  scrolls (trace (scroll_to_load_articles B fuel d).2)
  = scrolls (trace d) + S n.
Proof.
  intros Hh Hs Hne Heq Hfuel.
  assert (Hrun : ∃ d', scroll_to_load_articles B fuel d = (Returned (), d') ∧
    trace d' = trace d ++ EvHeight :: scroll_rounds (S n)).
  { unfold scroll_to_load_articles. rewrite bind_run.
    unfold execute_height at 1. pose proof (Hh 0) as H0.
    rewrite Nat.add_0_r in H0. rewrite H0. simpl.
    match goal with |- context [scroll_loop B fuel (h 0) ?d0] =>
      destruct (scroll_loop_rounds B (current_url d) h (heights_read d)
                  (scrolls_done d) Hh Hs n 0 d0 fuel)
        as (d' & -> & Htr) end; [repeat split; simpl; lia|done..|].
    exists d'. split; [done|]. rewrite Htr. simpl. by rewrite <-app_assoc. }
  destruct Hrun as (d' & -> & Htr). simpl. rewrite Htr.
  split_and!; [done..|]. unfold scrolls.
  change (EvHeight :: scroll_rounds (S n))
    with ([EvHeight] ++ scroll_rounds (S n)).
  rewrite !count_event_app, count_scroll_rounds.
  change (count_event EvScrollTo [EvHeight]) with 0. lia.
Qed.

Lemma scroll_stops_at_first_repeat_witness :
  (scroll_to_load_articles settling_browser 4 (at_page linux_hard_1)).1
  = Returned () ∧
  trace (scroll_to_load_articles settling_browser 4 (at_page linux_hard_1)).2
  = trace (at_page linux_hard_1) ++ EvHeight :: scroll_rounds 4 ∧
  scrolls (trace (scroll_to_load_articles settling_browser 4
                    (at_page linux_hard_1)).2)
  = scrolls (trace (at_page linux_hard_1)) + 4.
Proof.
  apply (scroll_stops_at_first_repeat settling_browser (at_page linux_hard_1)
           (λ n, Z.of_nat (n `min` 3)) 3 4).
  - intros i. reflexivity.
  - intros i. reflexivity.
  - intros i Hi. destruct i as [|[|[|i]]]; simpl; lia.
  - reflexivity.
  - lia.
Defined.

(** ** Pages in order *)

(** One page holding [nodes]: open, scroll, extract. *)
Lemma parse_hub_pages_step_items (B : Browser) (fuel N : nat)
    (hub_url difficulty url : string) (nodes : list article_node) (p : nat)
    (rest : list nat) (parsed : list article) (d : driver) :
  N ≤ fuel →
  page_holds B N hub_url difficulty p url nodes →
  ∃ d',
    parse_hub_pages B fuel hub_url difficulty (p :: rest) parsed d
    = parse_hub_pages B fuel hub_url difficulty rest
        (parsed ++ omap node_result nodes) d' ∧
    pages_extracted (trace d') = S (pages_extracted (trace d)) ∧
    navigated (trace d') = navigated (trace d) ++ [url].
Proof.
  intros Hfuel (Hfmt & Hload & Hmarker & Hsettles & Hitems).
  cbn [parse_hub_pages].
  rewrite bind_run, (open_habr_hub_present _ _ _ url) by done.
  set (d1 := {| trace := trace d ++ [EvGet url; EvWaitMarker];
                current_url := url; scrolls_done := 0; heights_read := 0 |}).
  rewrite bind_run.
  pose proof (scroll_returns_when_settles B N fuel d1 Hsettles eq_refl eq_refl
                Hfuel) as Hret.
  destruct (emits_scroll_to_load_articles B is_scroll_event fuel
              (or_introl eq_refl) (or_intror eq_refl) d1)
    as (evs & Htr & Hevs).
  pose proof (stays_scroll_to_load_articles B fuel d1) as Hurl.
  destruct (scroll_to_load_articles B fuel d1) as [o d2]. simpl in *.
  subst o. rewrite bind_run, (parse_articles_run B d2 nodes)
    by (by rewrite Hurl).
  eexists. split; [reflexivity|]. simpl. rewrite Htr.
  unfold pages_extracted. rewrite !navigated_app, !count_event_app.
  rewrite (navigated_scroll_events evs Hevs).
  rewrite (count_event_absent _ evs) by (by apply scroll_events_not).
  simpl. split; [|by rewrite !app_nil_r].
  change (count_event EvFindElements [EvGet url; EvWaitMarker]) with 0.
  change (count_event EvFindElements [EvFindElements]) with 1. lia.
Qed.

Lemma articles_of_pages_cons (nodes : nat → list article_node) (p K : nat) :
  articles_of_pages nodes p (S K)
  = omap node_result (nodes p) ++ articles_of_pages nodes (S p) K.
Proof. reflexivity. Qed.

(** A run of [K] pages that all hold their nodes. *)
Lemma parse_hub_pages_run (B : Browser) (fuel N : nat)
    (hub_url difficulty : string) (u : nat → string)
    (nodes : nat → list article_node) (rest : list nat) :
  N ≤ fuel →
  ∀ K p parsed d,
    (∀ k, p ≤ k < p + K →
          page_holds B N hub_url difficulty k (u k) (nodes k)) →
    ∃ d',
      parse_hub_pages B fuel hub_url difficulty (seq p K ++ rest) parsed d
      = parse_hub_pages B fuel hub_url difficulty rest
          (parsed ++ articles_of_pages nodes p K) d' ∧
      pages_extracted (trace d') = pages_extracted (trace d) + K ∧
      navigated (trace d') = navigated (trace d) ++ (u <$> seq p K).
Proof.
  intros Hfuel. induction K as [|K IH]; intros p parsed d Hgood.
  - exists d. cbn [seq app]. unfold articles_of_pages. simpl.
    rewrite !app_nil_r. split_and!; [done|lia|done].
  - cbn [seq app].
    destruct (parse_hub_pages_step_items B fuel N hub_url difficulty (u p)
                (nodes p) p (seq (S p) K ++ rest) parsed d Hfuel)
      as (d1 & -> & Hext & Hnav); [apply Hgood; lia|].
    destruct (IH (S p) (parsed ++ omap node_result (nodes p)) d1)
      as (d' & -> & Hext' & Hnav'); [intros k Hk; apply Hgood; lia|].
    exists d'. rewrite articles_of_pages_cons, <-app_assoc.
    split_and!; [done| |].
    + rewrite Hext', Hext. lia.
    + rewrite Hnav', Hnav, <-app_assoc. done.
Qed.

(** X11. When all 16 pages of a hub exist, [parse_hub] returns the
    articles of pages 1 to 16 in page order, having extracted 16 pages and
    navigated to exactly those 16 URLs: no 17th page is probed. *)
Theorem parse_hub_stops_at_page_limit (B : Browser) (fuel N : nat)
    (hub_url difficulty : string) (u : nat → string)
    (nodes : nat → list article_node) :
  N ≤ fuel →
  start_firefox B = None →
  install_addon B = None →
  (∀ k, 1 ≤ k ≤ NUM_PAGES_PER_SEARCH →
        page_holds B N hub_url difficulty k (u k) (nodes k)) →
  (run_parse_hub B fuel hub_url difficulty).1
  = Returned (articles_of_pages nodes 1 NUM_PAGES_PER_SEARCH) ∧
  pages_extracted (trace (run_parse_hub B fuel hub_url difficulty).2)
  = NUM_PAGES_PER_SEARCH ∧
  navigated (trace (run_parse_hub B fuel hub_url difficulty).2)
  = u <$> seq 1 NUM_PAGES_PER_SEARCH.
Proof.
  intros Hfuel Hstart Haddon Hgood.
  set (d0 := log_call EvInstallAddon (log_call EvStart no_session)).
  assert (Hpages : ∃ d',
    parse_hub_pages B fuel hub_url difficulty (seq 1 NUM_PAGES_PER_SEARCH) [] d0
    = (Returned (articles_of_pages nodes 1 NUM_PAGES_PER_SEARCH), d') ∧
    pages_extracted (trace d') = NUM_PAGES_PER_SEARCH ∧
    navigated (trace d') = u <$> seq 1 NUM_PAGES_PER_SEARCH).
  { destruct (parse_hub_pages_run B fuel N hub_url difficulty u nodes [] Hfuel
                NUM_PAGES_PER_SEARCH 1 [] d0)
      as (d' & Hrun & Hext & Hnav); [intros k Hk; apply Hgood; lia|].
    rewrite app_nil_r in Hrun. exists d'. rewrite Hrun, Hext, Hnav.
    split_and!; done. }
  destruct Hpages as (d' & Hrun & Hext & Hnav).
  assert (Hall : run_parse_hub B fuel hub_url difficulty
    = (Returned (articles_of_pages nodes 1 NUM_PAGES_PER_SEARCH),
       log_call EvQuit d')).
  { unfold run_parse_hub, parse_hub.
    rewrite bind_run, initialize_driver_run by done.
    fold d0. by rewrite bind_run, Hrun. }
  rewrite Hall. cbn [fst snd log_call trace].
  unfold pages_extracted in *. rewrite navigated_app, count_event_app.
  rewrite Hext, Hnav.
  change (navigated [EvQuit]) with (@nil string).
  change (count_event EvFindElements [EvQuit]) with 0.
  rewrite app_nil_r. split_and!; [done|lia|done].
Qed.

Lemma full_browser_holds (k : nat) :
  page_holds full_browser 1 linux_hub "/hard" k (linux_hard_url k) demo_nodes.
Proof. split_and!; [reflexivity..|apply listing_settles|reflexivity]. Qed.

Lemma parse_hub_stops_at_page_limit_witness :
  (run_parse_hub full_browser 1 linux_hub "/hard").1
  = Returned (articles_of_pages (λ _, demo_nodes) 1 NUM_PAGES_PER_SEARCH) ∧
  pages_extracted (trace (run_parse_hub full_browser 1 linux_hub "/hard").2)
  = NUM_PAGES_PER_SEARCH ∧
  navigated (trace (run_parse_hub full_browser 1 linux_hub "/hard").2)
  = linux_hard_url <$> seq 1 NUM_PAGES_PER_SEARCH.
Proof.
  apply (parse_hub_stops_at_page_limit full_browser 1 1 linux_hub "/hard"
           linux_hard_url (λ _, demo_nodes)).
  - lia.
  - reflexivity.
  - reflexivity.
  - intros k _. apply full_browser_holds.
Defined.

(** X12. With pages 1..K holding their nodes (K below 16) and the marker
    absent from page K+1, [parse_hub] returns the articles of page 1, then
    those of page 2, and so on up to page K: within a page in node order,
    failed nodes left out, nothing from any other page. *)
Theorem parse_hub_returns_pages_in_order (B : Browser) (fuel N : nat)
    (hub_url difficulty : string) (K : nat) (u : nat → string)
    (nodes : nat → list article_node) :
  K < NUM_PAGES_PER_SEARCH →
  N ≤ fuel →
  start_firefox B = None →
  install_addon B = None →
  (∀ k, 1 ≤ k ≤ K → page_holds B N hub_url difficulty k (u k) (nodes k)) →
  page_absent B hub_url difficulty (S K) (u (S K)) →
  (run_parse_hub B fuel hub_url difficulty).1
  = Returned (articles_of_pages nodes 1 K).
Proof.
  intros HK Hfuel Hstart Haddon Hgood (Hfmt & Hload & e & Hmarker).
  unfold run_parse_hub, parse_hub.
  rewrite bind_run, initialize_driver_run by done. rewrite bind_run.
  assert (Hsplit : seq 1 NUM_PAGES_PER_SEARCH
    = seq 1 K ++ S K :: seq (2 + K) (NUM_PAGES_PER_SEARCH - S K)).
  { replace NUM_PAGES_PER_SEARCH with (K + S (NUM_PAGES_PER_SEARCH - S K))
      at 1 by lia.
    by rewrite seq_app. }
  rewrite Hsplit.
  destruct (parse_hub_pages_run B fuel N hub_url difficulty u nodes
              (S K :: seq (2 + K) (NUM_PAGES_PER_SEARCH - S K)) Hfuel K 1 []
              (log_call EvInstallAddon (log_call EvStart no_session)))
    as (d' & -> & _); [intros k Hk; apply Hgood; lia|].
  rewrite (parse_hub_pages_absent _ _ _ _ (u (S K)) _ _ _ e) by done.
  by rewrite bind_run.
Qed.

Lemma parse_hub_returns_pages_in_order_witness :
  (run_parse_hub one_page_browser 1 linux_hub "/hard").1
  = Returned (articles_of_pages (λ _, demo_nodes) 1 1).
Proof.
  apply (parse_hub_returns_pages_in_order one_page_browser 1 1 linux_hub
           "/hard" 1 linux_hard_url (λ _, demo_nodes)).
  - unfold NUM_PAGES_PER_SEARCH. lia.
  - lia.
  - reflexivity.
  - reflexivity.
  - intros k Hk. assert (k = 1) as -> by lia.
    split_and!; [reflexivity..|apply listing_settles|reflexivity].
  - apply one_page_browser_absent.
Defined.


(** *** What every run does, whatever the browser answers *)

Lemma open_habr_hub_outcome (B : Browser) (hub_url difficulty : string)
    (p : nat) (d : driver) :
  match format_url B hub_url p difficulty with
  | Throws e => open_habr_hub B hub_url p difficulty d = (Raised e, d)
  | Value url =>
      match page_load (site B url) with
      | Some e =>
          open_habr_hub B hub_url p difficulty d
          = (Raised e,
             {| trace := trace d ++ [EvGet url]; current_url := url;
                scrolls_done := 0; heights_read := 0 |})
      | None =>
          open_habr_hub B hub_url p difficulty d
          = (Returned (bool_decide (page_marker (site B url) = None)),
             {| trace := trace d ++ [EvGet url; EvWaitMarker];
                current_url := url; scrolls_done := 0; heights_read := 0 |})
      end
  end.
Proof.
  destruct (format_url B hub_url p difficulty) as [url|e] eqn:Hfmt.
  - destruct (page_load (site B url)) as [e|] eqn:Hload.
    + unfold open_habr_hub. rewrite bind_run, Hfmt. simpl. rewrite bind_run.
      unfold driver_get. by rewrite Hload.
    + destruct (page_marker (site B url)) as [e|] eqn:Hmarker.
      * by rewrite (open_habr_hub_absent _ _ _ url _ e).
      * by rewrite (open_habr_hub_present _ _ _ url).
  - unfold open_habr_hub. by rewrite bind_run, Hfmt.
Qed.

Lemma navigated_no_get (evs : list event) :
  Forall (λ e, ∀ v, e ≠ EvGet v) evs → navigated evs = [].
Proof.
  induction 1 as [|x l Hx _ IHl]; [done|].
  destruct x as [| |v| | | | |]; try done. by destruct (Hx v).
Qed.

Lemma parse_articles_state (B : Browser) (d : driver) :
  (parse_articles B d).2 = log_call EvFindElements d.
Proof.
  unfold parse_articles. rewrite bind_run. unfold find_elements.
  destruct (page_items (site B (current_url d))) as [nodes|e]; simpl; [|done].
  by rewrite parse_articles_loop_run.
Qed.

Lemma parse_hub_pages_prefix (B : Browser) (fuel : nat)
    (hub_url difficulty : string) (pages : list nat) :
  ∀ parsed d,
    ∃ n urls,
      n ≤ length pages ∧
      formatted B hub_url difficulty urls (take n pages) ∧
      navigated (trace (parse_hub_pages B fuel hub_url difficulty pages
                          parsed d).2)
      = navigated (trace d) ++ urls ∧
      pages_extracted (trace (parse_hub_pages B fuel hub_url difficulty pages
                                parsed d).2)
      ≤ pages_extracted (trace d) + n.
Proof.
  unfold formatted.
  induction pages as [|p rest IH]; intros parsed d.
  { exists 0, []. simpl. rewrite app_nil_r. split_and!; [lia|constructor|done|lia]. }
  cbn [parse_hub_pages]. rewrite bind_run.
  pose proof (open_habr_hub_outcome B hub_url difficulty p d) as Hopen.
  destruct (format_url B hub_url p difficulty) as [url|e] eqn:Hfmt.
  2:{ rewrite Hopen. exists 0, []. simpl. rewrite app_nil_r.
      split_and!; [lia|constructor|done|lia]. }
  assert (Hone : ∀ x : outcome (list article) * driver,
    (∃ evs, trace x.2 = (trace d ++ [EvGet url]) ++ evs ∧
            Forall (λ e, ∀ v, e ≠ EvGet v) evs ∧
            count_event EvFindElements evs ≤ 1) →
    ∃ n urls,
      n ≤ length (p :: rest) ∧
      Forall2 (λ url k, format_url B hub_url k difficulty = Value url)
        urls (take n (p :: rest)) ∧
      navigated (trace x.2) = navigated (trace d) ++ urls ∧
      pages_extracted (trace x.2) ≤ pages_extracted (trace d) + n).
  { intros x (evs & -> & Hevs & Hcount). exists 1, [url]. simpl.
    unfold pages_extracted. rewrite !navigated_app, !count_event_app.
    change (navigated [EvGet url]) with [url].
    change (count_event EvFindElements [EvGet url]) with 0.
    rewrite (navigated_no_get evs Hevs).
    rewrite app_nil_r. split_and!; [lia|by repeat constructor|done|lia]. }
  destruct (page_load (site B url)) as [e|] eqn:Hload.
  { rewrite Hopen. apply Hone. exists []. simpl. rewrite app_nil_r.
    split_and!; [done|constructor|]. vm_compute; lia. }
  rewrite Hopen.
  set (d2 := {| trace := trace d ++ [EvGet url; EvWaitMarker];
                current_url := url; scrolls_done := 0; heights_read := 0 |}).
  assert (Htr2 : trace d2 = (trace d ++ [EvGet url]) ++ [EvWaitMarker])
    by (simpl; by rewrite <-app_assoc).
  destruct (bool_decide (page_marker (site B url) = None)).
  2:{ apply Hone. exists [EvWaitMarker]. split_and!; [done| |vm_compute; lia].
      repeat constructor. done. }
  rewrite bind_run.
  destruct (emits_scroll_to_load_articles B is_scroll_event fuel
              (or_introl eq_refl) (or_intror eq_refl) d2)
    as (evs & Htr3 & Hevs).
  destruct (scroll_to_load_articles B fuel d2) as [o d3]. simpl in Htr3.
  assert (Hscroll : Forall (λ e, ∀ v, e ≠ EvGet v) (EvWaitMarker :: evs)).
  { constructor; [done|]. eapply Forall_impl; [exact Hevs|].
    intros x [->| ->]; done. }
  assert (Hnone : count_event EvFindElements (EvWaitMarker :: evs) = 0).
  { apply count_event_absent. constructor; [done|].
    by apply scroll_events_not. }
  assert (Htr3' : trace d3 = (trace d ++ [EvGet url]) ++ EvWaitMarker :: evs).
  { rewrite Htr3, <-!app_assoc. done. }
  destruct o as [[]|e|];
    [|apply Hone; exists (EvWaitMarker :: evs); split_and!; [done..|lia]..].
  rewrite bind_run. pose proof (parse_articles_state B d3) as Hd4.
  destruct (parse_articles B d3) as [o' d4]. simpl in Hd4. subst d4.
  assert (Htr4 : trace (log_call EvFindElements d3)
    = (trace d ++ [EvGet url]) ++ (EvWaitMarker :: evs) ++ [EvFindElements]).
  { simpl. rewrite Htr3'. by rewrite <-!app_assoc. }
  assert (Hfind : Forall (λ e, ∀ v, e ≠ EvGet v)
                    ((EvWaitMarker :: evs) ++ [EvFindElements])).
  { apply Forall_app. split; [done|]. by repeat constructor. }
  assert (Hcnt : count_event EvFindElements
                   ((EvWaitMarker :: evs) ++ [EvFindElements]) = 1).
  { rewrite count_event_app, Hnone. done. }
  destruct o' as [found|e|];
    [|apply Hone; eexists; split_and!; [exact Htr4|done|lia]..].
  destruct (IH (parsed ++ found) (log_call EvFindElements d3))
    as (n & urls & Hn & Hfmts & Hnav & Hext).
  exists (S n), (url :: urls). cbn [take length].
  split_and!; [lia|by constructor| |].
  - rewrite Hnav, Htr4, (navigated_app (trace d ++ [EvGet url])),
      (navigated_app (trace d)).
    change (navigated [EvGet url]) with [url].
    rewrite (navigated_no_get _ Hfind).
    by rewrite app_nil_r, <-app_assoc.
  - etrans; [exact Hext|]. rewrite Htr4. unfold pages_extracted.
    rewrite (count_event_app _ (trace d ++ [EvGet url])), Hcnt,
      (count_event_app _ (trace d)).
    change (count_event EvFindElements [EvGet url]) with 0. lia.
Qed.

(** X13. Whatever the browser answers and however the run ends,
    [parse_hub] has navigated to the URLs of pages 1, 2, ..., n in that
    order for some n of at most 16, never skipping or repeating a page
    number and never going past the configured maximum, and it has
    extracted at most n pages. *)
Theorem parse_hub_navigates_in_page_order (B : Browser) (fuel : nat)
    (hub_url difficulty : string) :
  ∃ n, n ≤ NUM_PAGES_PER_SEARCH ∧
       formatted B hub_url difficulty
         (navigated (trace (run_parse_hub B fuel hub_url difficulty).2))
         (seq 1 n) ∧
       pages_extracted (trace (run_parse_hub B fuel hub_url difficulty).2) ≤ n.
Proof.
  unfold formatted.
  destruct (start_firefox B) as [e|] eqn:Hstart.
  { rewrite (run_parse_hub_no_firefox B _ _ _ e Hstart). exists 0.
    split_and!; [lia|by apply Forall2_nil|vm_compute; lia]. }
  destruct (install_addon B) as [e|] eqn:Haddon.
  { rewrite (run_parse_hub_no_addon B _ _ _ e Hstart Haddon). exists 0.
    split_and!; [lia|by apply Forall2_nil|vm_compute; lia]. }
  rewrite run_parse_hub_started by done.
  set (d0 := log_call EvInstallAddon (log_call EvStart no_session)).
  destruct (parse_hub_pages_prefix B fuel hub_url difficulty
              (seq 1 NUM_PAGES_PER_SEARCH) [] d0)
    as (n & urls & Hn & Hfmts & Hnav & Hext).
  unfold formatted in Hfmts.
  rewrite length_seq in Hn. rewrite take_seq, Nat.min_l in Hfmts by done.
  change (navigated (trace d0)) with (@nil string) in Hnav.
  change (pages_extracted (trace d0)) with 0 in Hext.
  rewrite app_nil_l in Hnav. rewrite Nat.add_0_l in Hext.
  exists n.
  destruct (parse_hub_pages B fuel hub_url difficulty _ [] d0)
    as [[parsed|e|] d1]; cbn [fst snd] in *;
    [|rewrite Hnav; split_and!; [done..|lia]..].
  cbn [log_call trace]. unfold pages_extracted in *.
  rewrite navigated_app, count_event_app, Hnav.
  change (navigated [EvQuit]) with (@nil string).
  change (count_event EvFindElements [EvQuit]) with 0.
  rewrite app_nil_r. split_and!; [done..|lia].
Qed.

(** ** From the join to the file *)

Lemma returned_finished (l : list (outcome (list article))) :
  forallb returned l = true → forallb finished l = true.
Proof.
  rewrite !forallb_elem_of. intros Hl x Hx. specialize (Hl x Hx).
  by destruct x.
Qed.

Lemma main_all_returned (executor_init : pyval → option exn) (B : Browser)
    (environ : gmap string string) (fuel : nat) (order : list nat)
    (now : string) :
  executor_init (CPU_THREADS environ) = None →
  order ≡ₚ seq 0 (length tasks) →
  forallb returned (futures B fuel) = true →
  let merged := results_of (omap (λ i, futures B fuel !! i) order) in
  main executor_init B environ fuel order now
  = Returned (merged, save_to_csv merged ("articles_" +:+ now +:+ ".csv")) ∧
  merged ≡ₚ results_of (futures B fuel).
Proof.
  intros Hinit Horder Hret merged.
  assert (Hperm : omap (λ i, futures B fuel !! i) order ≡ₚ futures B fuel).
  { apply completed_permutation. unfold futures. by rewrite length_fmap. }
  split.
  - unfold main, main_collect.
    rewrite Hinit, (returned_finished _ Hret).
    by rewrite collect_results_all_returned
      by (by eapply forallb_permutation).
  - unfold merged, results_of. by rewrite Hperm.
Qed.

Lemma rows_with_link_length (arts : list article) (fn l : string) :
  l ∈ link <$> arts → length (rows_with_link (save_to_csv arts fn) l) = 1.
Proof.
  intros Hl. unfold rows_with_link.
  rewrite (length_filter_fmap row_link (Some l)), NoDup_count
    by (rewrite data_rows_links; apply (NoDup_fmap_2 _), NoDup_elements).
  rewrite data_rows_links, decide_True; [done|].
  apply list_elem_of_fmap. exists l. split; [done|].
  apply elem_of_elements. by apply elem_of_list_to_set.
Qed.

(** X14. When the pool is constructed and all tasks return, the order in
    which the tasks complete does not change which links are written: for
    any two completion orders [main] returns, the two merged collections
    are permutations of each other and the two files hold the same links,
    one row each (the order of the rows is not compared). *)
Theorem main_links_independent_of_order (executor_init : pyval → option exn)
    (B : Browser) (environ : gmap string string) (fuel : nat)
    (order1 order2 : list nat) (now : string) :
  executor_init (CPU_THREADS environ) = None →
  order1 ≡ₚ seq 0 (length tasks) →
  order2 ≡ₚ seq 0 (length tasks) →
  forallb returned (futures B fuel) = true →
  ∃ merged1 file1 merged2 file2,
    main executor_init B environ fuel order1 now = Returned (merged1, file1) ∧
    main executor_init B environ fuel order2 now = Returned (merged2, file2) ∧
    merged1 ≡ₚ merged2 ∧
    row_link <$> data_rows file1 ≡ₚ row_link <$> data_rows file2.
Proof.
  intros Hinit Ho1 Ho2 Hret.
  destruct (main_all_returned executor_init B environ fuel order1 now
              Hinit Ho1 Hret) as [Hm1 Hp1].
  destruct (main_all_returned executor_init B environ fuel order2 now
              Hinit Ho2 Hret) as [Hm2 Hp2].
  eexists _, _, _, _. split_and!; [exact Hm1|exact Hm2|by rewrite Hp1, Hp2|].
  rewrite !data_rows_links. apply fmap_Permutation.
  apply NoDup_Permutation; [apply NoDup_elements..|]. intros l.
  rewrite !elem_of_elements. unfold unique_links.
  rewrite !elem_of_list_to_set. by rewrite Hp1, Hp2.
Qed.

Lemma main_links_independent_of_order_witness :
  ∃ merged1 file1 merged2 file2,
    main cpython_executor_init two_hub_browser ∅ 1 (seq 0 14) "t"
    = Returned (merged1, file1) ∧
    main cpython_executor_init two_hub_browser ∅ 1 (rev (seq 0 14)) "t"
    = Returned (merged2, file2) ∧
    merged1 ≡ₚ merged2 ∧
    row_link <$> data_rows file1 ≡ₚ row_link <$> data_rows file2.
Proof.
  apply (main_links_independent_of_order cpython_executor_init two_hub_browser
           ∅ 1 (seq 0 14) (rev (seq 0 14)) "t").
  - reflexivity.
  - reflexivity.
  - symmetry. apply Permutation_rev.
  - vm_compute. reflexivity.
Defined.

(** X15. When the pool is constructed and all tasks return, every link of
    every article returned by any task is in exactly one data row of the
    file [main] writes, and no two data rows share a link. *)
Theorem main_writes_every_link_once (executor_init : pyval → option exn)
    (B : Browser) (environ : gmap string string) (fuel : nat)
    (order : list nat) (now : string) :
  executor_init (CPU_THREADS environ) = None →
  order ≡ₚ seq 0 (length tasks) →
  forallb returned (futures B fuel) = true →
  ∃ merged file,
    main executor_init B environ fuel order now = Returned (merged, file) ∧
    NoDup (row_link <$> data_rows file) ∧
    ∀ r a, Returned r ∈ futures B fuel → a ∈ r →
           length (rows_with_link file (link a)) = 1.
Proof.
  intros Hinit Horder Hret.
  destruct (main_all_returned executor_init B environ fuel order now
              Hinit Horder Hret) as [Hm Hp].
  eexists _, _. split_and!; [exact Hm| |].
  - rewrite data_rows_links. apply (NoDup_fmap_2 _), NoDup_elements.
  - intros r a Hr Ha. apply rows_with_link_length.
    apply list_elem_of_fmap_2. rewrite Hp.
    by apply (results_of_subset _ r).
Qed.

Lemma main_writes_every_link_once_witness :
  ∃ merged file,
    main cpython_executor_init two_hub_browser ∅ 1 (seq 0 14) "t"
    = Returned (merged, file) ∧
    NoDup (row_link <$> data_rows file) ∧
    ∀ r a, Returned r ∈ futures two_hub_browser 1 → a ∈ r →
           length (rows_with_link file (link a)) = 1.
Proof.
  apply (main_writes_every_link_once cpython_executor_init two_hub_browser ∅ 1
           (seq 0 14) "t").
  - reflexivity.
  - reflexivity.
  - vm_compute. reflexivity.
Defined.

Lemma collect_results_first_raised (pre suf : list (outcome (list article)))
    (parsed : list article) (e : exn) :
  forallb returned pre = true →
  collect_results (pre ++ Raised e :: suf) parsed = Raised e.
Proof.
  revert parsed. induction pre as [|[r|e'|] pre IH]; intros parsed Hpre;
    simpl in *; try done. by apply IH.
Qed.

(** X16. Which exception [main] raises is decided by completion order: if
    the futures that complete before future [i] all returned and future
    [i] raised [e], then [main] raises [e], whatever the futures completing
    later did (as long as every task ends), and nothing is written. *)
Theorem main_raises_first_completed_failure
    (executor_init : pyval → option exn) (B : Browser)
    (environ : gmap string string) (fuel : nat) (before after : list nat)
    (i : nat) (now : string) (e : exn) :
  executor_init (CPU_THREADS environ) = None →
  forallb finished (futures B fuel) = true →
  (∀ j, j ∈ before → ∃ r, futures B fuel !! j = Some (Returned r)) →
  futures B fuel !! i = Some (Raised e) →
  main executor_init B environ fuel (before ++ i :: after) now = Raised e.
Proof.
  intros Hinit Hfin Hbefore Hi. unfold main, main_collect.
  rewrite Hinit, Hfin, omap_app. csimpl. rewrite Hi.
  rewrite collect_results_first_raised; [done|].
  apply forallb_elem_of. intros o (j & Hj & Ho)%list_elem_of_omap.
  destruct (Hbefore j Hj) as (r & Hr). rewrite Hr in Ho. by injection Ho as <-.
Qed.

Lemma main_raises_first_completed_failure_witness :
  main cpython_executor_init failing_browser ∅ 1 ([9; 0] ++ 6 :: [1; 2; 3])
    "t"
  = Raised WebDriverException.
Proof.
  apply (main_raises_first_completed_failure cpython_executor_init
           failing_browser ∅ 1 [9; 0] [1; 2; 3] 6 "t" WebDriverException).
  - reflexivity.
  - vm_compute. reflexivity.
  - intros j Hj.
    apply elem_of_cons in Hj as [->|Hj];
      [|apply list_elem_of_singleton in Hj as ->];
      eexists; vm_compute; reflexivity.
  - vm_compute. reflexivity.
Defined.

(** X17. When the first height measurement on an opened page raises, the
    page loop raises that exception before any scroll and before the
    article nodes are looked up, dropping the articles collected from
    earlier pages. *)
Theorem scroll_error_propagates (B : Browser) (fuel : nat)
    (hub_url difficulty url : string) (page_number : nat) (rest : list nat)
    (parsed : list article) (e : exn) (d : driver) :
  format_url B hub_url page_number difficulty = Value url →
  page_load (site B url) = None →
  page_marker (site B url) = None →
  page_height (site B url) 0 = Throws e →
  parse_hub_pages B fuel hub_url difficulty (page_number :: rest) parsed d
  = (Raised e,
     {| trace := trace d ++ [EvGet url; EvWaitMarker; EvHeight];
        current_url := url; scrolls_done := 0; heights_read := 1 |}).
Proof.
  intros Hfmt Hload Hmarker Hheight. cbn [parse_hub_pages].
  rewrite bind_run, (open_habr_hub_present _ _ _ url) by done.
  rewrite bind_run. unfold scroll_to_load_articles. rewrite bind_run.
  unfold execute_height. simpl. rewrite Hheight. simpl.
  by rewrite <-app_assoc.
Qed.

Lemma scroll_error_propagates_witness :
  parse_hub_pages script_failing_browser 1 linux_hub "/hard" [1; 2]
    [Article "A" "L1"] no_session
  = (Raised WebDriverException,
     {| trace := trace no_session ++ [EvGet linux_hard_1; EvWaitMarker; EvHeight];
        current_url := linux_hard_1; scrolls_done := 0; heights_read := 1 |}).
Proof.
  apply (scroll_error_propagates script_failing_browser 1 linux_hub "/hard"
           linux_hard_1 1 [2] [Article "A" "L1"] WebDriverException
           no_session); reflexivity.
Defined.

(** * The hub crawl, call by call *)

Section ScrollRounds.

Context (B : Browser) (u : string) (h : nat → Z) (hb sb : nat).

Hypothesis heights : ∀ n, page_height (site B u) (hb + n) = Value (h n).
Hypothesis scrolling : ∀ n, page_scroll (site B u) (sb + n) = None.


End ScrollRounds.







Example one_page_crawl_trace :
  trace (run_parse_hub one_page_browser 1 linux_hub "/hard").2
  = [EvStart; EvInstallAddon]
      ++ page_visit linux_hard_1 1
      ++ [EvGet (linux_hard_url 2); EvWaitMarker; EvQuit].
Proof. reflexivity. Qed.

(** ** Exceptions leave the crawl *)

Lemma scroll_loop_raises (B : Browser) (h : nat → Z) (e : exn) (n : nat) :
  ∀ k d fuel,
    heights_read d = S k → scrolls_done d = k → n < fuel →
    (∀ i, k ≤ i ≤ k + n →
          page_height (site B (current_url d)) i = Value (h i)) →
    (∀ i, k ≤ i < k + n →
          page_scroll (site B (current_url d)) i = None ∧ h (S i) ≠ h i) →
    (page_scroll (site B (current_url d)) (k + n) = Some e ∨
     (page_scroll (site B (current_url d)) (k + n) = None ∧
      page_height (site B (current_url d)) (S (k + n)) = Throws e)) →
    (scroll_loop B fuel (h k) d).1 = Raised e.
Proof.
  induction n as [|n IH]; intros k d [|fuel] Hh Hs Hfuel Hval Hok Hbad;
    try lia; cbn [scroll_loop]; rewrite bind_run; unfold execute_scroll at 1;
    rewrite Hs.
  - rewrite Nat.add_0_r in Hbad. destruct Hbad as [->|[-> Hbad]]; [done|].
    simpl. rewrite bind_run. unfold execute_height at 1. simpl.
    by rewrite Hh, Hbad.
  - destruct (Hok k) as [-> Hne]; [lia|]. simpl. rewrite bind_run.
    unfold execute_height at 1. simpl. rewrite Hh, (Hval (S k)) by lia.
    simpl. rewrite decide_False by done.
    apply IH; simpl; [done|done|lia| | |].
    + intros i Hi. apply Hval. lia.
    + intros i Hi. apply Hok. lia.
    + replace (S (k + n)) with (k + S n) by lia. exact Hbad.
Qed.

Lemma scroll_raises_run (B : Browser) (N fuel : nat) (d : driver) (e : exn) :
  scroll_raises (site B (current_url d)) N e →
  heights_read d = 0 → scrolls_done d = 0 → N ≤ fuel →
  (scroll_to_load_articles B fuel d).1 = Raised e.
Proof.
  intros [Hfirst|(h & n & Hn & Hval & Hok & Hbad)] Hh0 Hs0 Hfuel;
    unfold scroll_to_load_articles; rewrite bind_run;
    unfold execute_height at 1; rewrite Hh0.
  - by rewrite Hfirst.
  - rewrite (Hval 0) by lia. simpl.
    apply (scroll_loop_raises B h e n 0); simpl; [done|done|lia|..].
    + intros i Hi. apply Hval. lia.
    + intros i Hi. apply Hok. lia.
    + done.
Qed.

Lemma parse_hub_pages_fails (B : Browser) (fuel N : nat)
    (hub_url difficulty : string) (p : nat) (rest : list nat)
    (parsed : list article) (e : exn) (d : driver) :
  N ≤ fuel →
  page_fails B N hub_url difficulty p e →
  (parse_hub_pages B fuel hub_url difficulty (p :: rest) parsed d).1
  = Raised e.
Proof.
  intros Hfuel Hfails. cbn [parse_hub_pages]. rewrite bind_run.
  pose proof (open_habr_hub_outcome B hub_url difficulty p d) as Hopen.
  destruct Hfails as [Hfmt|(url & Hfmt & Hfails)]; rewrite Hfmt in Hopen.
  { by rewrite Hopen. }
  destruct Hfails as [Hload|(Hload & Hmarker & Hfails)];
    rewrite Hload in Hopen; rewrite Hopen; [done|].
  rewrite Hmarker. simpl. rewrite bind_run.
  set (d1 := {| trace := trace d ++ [EvGet url; EvWaitMarker];
                current_url := url; scrolls_done := 0; heights_read := 0 |}).
  destruct Hfails as [Hscroll|[Hsettles Hitems]].
  - pose proof (scroll_raises_run B N fuel d1 e Hscroll eq_refl eq_refl Hfuel)
      as Hraised.
    destruct (scroll_to_load_articles B fuel d1) as [o d2]. simpl in Hraised.
    by subst o.
  - pose proof (scroll_returns_when_settles B N fuel d1 Hsettles eq_refl
                  eq_refl Hfuel) as Hret.
    pose proof (stays_scroll_to_load_articles B fuel d1) as Hurl.
    destruct (scroll_to_load_articles B fuel d1) as [o d2]. simpl in *.
    subst o. rewrite bind_run. unfold parse_articles. rewrite bind_run.
    unfold find_elements. by rewrite Hurl, Hitems.
Qed.

Lemma parse_hub_pages_run_exists (B : Browser) (fuel N : nat)
    (hub_url difficulty : string) (u : nat → string) (rest : list nat) :
  N ≤ fuel →
  ∀ K p parsed d,
    (∀ k, p ≤ k < p + K → page_exists B N hub_url difficulty k (u k)) →
    ∃ found d',
      parse_hub_pages B fuel hub_url difficulty (seq p K ++ rest) parsed d
      = parse_hub_pages B fuel hub_url difficulty rest (parsed ++ found) d'.
Proof.
  intros Hfuel. induction K as [|K IH]; intros p parsed d Hgood.
  - exists [], d. by rewrite app_nil_r.
  - cbn [seq app].
    destruct (parse_hub_pages_step B fuel N hub_url difficulty (u p) p
                (seq (S p) K ++ rest) parsed d Hfuel)
      as (found & d1 & -> & _); [apply Hgood; lia|].
    destruct (IH (S p) (parsed ++ found) d1) as (found' & d' & ->);
      [intros k Hk; apply Hgood; lia|].
    exists (found ++ found'), d'. by rewrite app_assoc.
Qed.

Lemma crawl_fails_raises (B : Browser) (fuel N : nat)
    (hub_url difficulty : string) (e : exn) :
  N ≤ fuel →
  crawl_fails B N hub_url difficulty e →
  (run_parse_hub B fuel hub_url difficulty).1 = Raised e.
Proof.
  intros Hfuel [Hstart|[[Hstart Haddon]|(Hstart & Haddon & K & u & HK & Hgood
                                          & Hfails)]].
  - by rewrite (run_parse_hub_no_firefox B _ _ _ e Hstart).
  - by rewrite (run_parse_hub_no_addon B _ _ _ e Hstart Haddon).
  - rewrite run_parse_hub_started by done.
    assert (Hsplit : seq 1 NUM_PAGES_PER_SEARCH
      = seq 1 K ++ (1 + K) :: seq (2 + K) (NUM_PAGES_PER_SEARCH - S K)).
    { replace NUM_PAGES_PER_SEARCH with (K + S (NUM_PAGES_PER_SEARCH - S K))
        at 1 by lia.
      by rewrite seq_app. }
    rewrite Hsplit.
    destruct (parse_hub_pages_run_exists B fuel N hub_url difficulty u
                ((1 + K) :: seq (2 + K) (NUM_PAGES_PER_SEARCH - S K)) Hfuel
                K 1 [] (log_call EvInstallAddon (log_call EvStart no_session)))
      as (found & d' & ->); [intros k Hk; apply Hgood; lia|].
    pose proof (parse_hub_pages_fails B fuel N hub_url difficulty (1 + K)
                  (seq (2 + K) (NUM_PAGES_PER_SEARCH - S K)) ([] ++ found) e d'
                  Hfuel Hfails) as Hraised.
    destruct (parse_hub_pages B fuel hub_url difficulty _ _ d') as [o d''].
    simpl in Hraised. by subst o.
Qed.

Lemma parse_hub_quits_by_outcome (B : Browser) (fuel : nat)
    (hub_url difficulty : string) :
  match (run_parse_hub B fuel hub_url difficulty).1 with
  | Returned _ =>
      quits (trace (run_parse_hub B fuel hub_url difficulty).2) = 1 ∧
      last (trace (run_parse_hub B fuel hub_url difficulty).2) = Some EvQuit
  | Raised _ | OutOfFuel =>
      quits (trace (run_parse_hub B fuel hub_url difficulty).2) = 0
  end.
Proof.
  unfold run_parse_hub, parse_hub.
  generalize (seq 1 NUM_PAGES_PER_SEARCH). intros pages. rewrite bind_run.
  destruct (emits_initialize_driver B not_quit) with (d := no_session)
    as (evs0 & Htr0 & Hevs0); [done..|].
  destruct (initialize_driver B no_session) as [[[]|e|] d0]; simpl in *;
    try (rewrite Htr0; by apply count_event_absent).
  rewrite bind_run.
  destruct (emits_parse_hub_pages B not_quit fuel hub_url difficulty
              pages) with (parsed := @nil article)
              (d := d0) as (evs1 & Htr1 & Hevs1); [done..|].
  assert (Hq : quits (trace d0 ++ evs1) = 0).
  { unfold quits. rewrite Htr0, count_event_app. simpl.
    by rewrite !count_event_absent. }
  destruct (parse_hub_pages B fuel hub_url difficulty _ [] d0)
    as [[parsed|e|] d1]; simpl in *; [|by rewrite Htr1..].
  rewrite ?bind_run. simpl. rewrite Htr1.
  split; [|apply last_snoc].
  unfold quits in *. rewrite count_event_app, Hq. done.
Qed.

(** C6 (as the code has it). [parse_hub] closes its session exactly once,
    as its last call, on the path on which it returns, and not at all on
    any other path.  The other paths are taken: when starting Firefox or
    installing the extension raises, or when, after pages 1..K were
    crawled, formatting the URL of page K+1, navigating to it, scrolling it
    or looking up its article nodes raises, that exception leaves
    [parse_hub], and the session is not closed. *)
Theorem parse_hub_quits_iff_returns (B : Browser) (fuel : nat)
    (hub_url difficulty : string) :
  match (run_parse_hub B fuel hub_url difficulty).1 with
  | Returned _ =>
      quits (trace (run_parse_hub B fuel hub_url difficulty).2) = 1 ∧
      last (trace (run_parse_hub B fuel hub_url difficulty).2) = Some EvQuit
  | Raised _ | OutOfFuel =>
      quits (trace (run_parse_hub B fuel hub_url difficulty).2) = 0
  end ∧
  ∀ N e,
    N ≤ fuel →
    crawl_fails B N hub_url difficulty e →
    (run_parse_hub B fuel hub_url difficulty).1 = Raised e ∧
    quits (trace (run_parse_hub B fuel hub_url difficulty).2) = 0.
Proof.
  pose proof (parse_hub_quits_by_outcome B fuel hub_url difficulty) as Hq.
  split; [exact Hq|]. intros N e Hfuel Hfails.
  pose proof (crawl_fails_raises B fuel N hub_url difficulty e Hfuel Hfails)
    as Hraised.
  rewrite Hraised in Hq. by rewrite Hraised.
Qed.

Lemma second_page_failing_browser_fails :
  crawl_fails second_page_failing_browser 1 linux_hub "/hard"
    WebDriverException.
Proof.
  right. right. split_and!; [reflexivity..|].
  exists 1, linux_hard_url. split_and!.
  - unfold NUM_PAGES_PER_SEARCH. lia.
  - intros k Hk. assert (k = 1) as -> by lia.
    split_and!; [reflexivity..|apply listing_settles|by eexists].
  - right. exists (linux_hard_url 2). split; [reflexivity|]. left. reflexivity.
Qed.

Lemma parse_hub_quits_iff_returns_witness :
  (run_parse_hub second_page_failing_browser 1 linux_hub "/hard").1
  = Raised WebDriverException ∧
  quits (trace (run_parse_hub second_page_failing_browser 1 linux_hub
                  "/hard").2) = 0.
Proof.
  apply (proj2 (parse_hub_quits_iff_returns second_page_failing_browser 1
                  linux_hub "/hard") 1 WebDriverException).
  - lia.
  - apply second_page_failing_browser_fails.
Defined.

Example second_page_failure_loses_first_page :
  run_parse_hub second_page_failing_browser 1 linux_hub "/hard"
  = (Raised WebDriverException,
     {| trace := [EvStart; EvInstallAddon] ++ page_visit linux_hard_1 1
                   ++ [EvGet (linux_hard_url 2)];
        current_url := linux_hard_url 2; scrolls_done := 0;
        heights_read := 0 |}).
Proof. reflexivity. Qed.
